(** * Shakespeare quote retrieval: session tracking, post-filtering, ingestion

    A shallow embedding of [src/session_manager.py], [src/quote_selector.py]
    and the ingestion half of [src/quote_database.py], with the properties
    the specification states about them.

    Conventions.
    - Python [str] is [string]; the only separator the code splits on is the
      ASCII comma, so working on bytes agrees with working on code points.
    - A Python [set] of chunk ids is a [gset string], a [dict] with string
      keys is a [gmap string _].
    - [Optional[T]] is [option T]; the truth test [if x:] is written out
      ([Py.truthy_list], [Py.truthy_str], [truthy]).
    - The vector index (ChromaDB), the embedding model, the wall clock and
      the [json] library are outside the repository: the index enters as the
      function [Database], the clock as explicit timestamps, and a session
      file holds the dictionary that [json.dump] was given. *)

From Stdlib Require Import ZArith QArith String Ascii List Sorted.
From stdpp Require Import base option list sets gmap strings sorting.

Local Open Scope string_scope.
Local Open Scope list_scope.

(* ================================================================== *)
(** * Python primitives used by the source *)
(* ================================================================== *)

Module Py.

(** [s.split(sep)] for a one-character separator: a string with [n]
    separators yields [n + 1] parts, and [''.split(',')] is [['']]. *)
Fixpoint split (sep : ascii) (s : string) : list string :=
  match s with
  | EmptyString => [EmptyString]
  | String c rest =>
      if Ascii.eqb c sep then EmptyString :: split sep rest
      else match split sep rest with
           | [] => [String c EmptyString]
           | part :: parts => String c part :: parts
           end
  end.

(** [sep.join(parts)]. *)
Definition join (sep : string) (parts : list string) : string :=
  String.concat sep parts.

(** [l[:stop]]: a negative [stop] counts from the end. *)
Definition slice_to {A : Type} (stop : Z) (l : list A) : list A :=
  if (0 <=? stop)%Z then take (Z.to_nat stop) l
  else take (length l - Z.to_nat (- stop)) l.

(** Truth value of a [str]. *)
Definition truthy_str (s : string) : bool := negb (String.eqb s "").

(** Truth value of an [Optional[str]]. *)
Definition truthy_opt_str (o : option string) : bool :=
  match o with
  | Some s => truthy_str s
  | None => false
  end.

(** Truth value of an [Optional[List[_]]]. *)
Definition truthy_list {A : Type} (o : option (list A)) : bool :=
  match o with
  | Some (_ :: _) => true
  | _ => false
  end.

(** [x in l] for a list of strings. *)
Definition contains (l : list string) (x : string) : bool :=
  bool_decide (x ∈ l).

(** [any(x in haystack for x in needles)]. *)
Definition any_in (needles haystack : list string) : bool :=
  existsb (contains haystack) needles.

End Py.

(** Exceptions the modelled code can raise. *)
Inductive exn : Type :=
  | KeyError (key : string)
  | FileNotFoundError (path : string).

Inductive outcome (A : Type) : Type :=
  | Ok (a : A)
  | Raise (e : exn).

Arguments Ok {A} a.
Arguments Raise {A} e.

(** State monad for methods that run against a mutable object of type [T]. *)
Definition St (T A : Type) : Type := T → A * T.

Definition ret {T A : Type} (a : A) : St T A := λ s, (a, s).

Definition bind {T A B : Type} (m : St T A) (k : A → St T B) : St T B :=
  λ s, let '(a, s') := m s in k a s'.

Definition gets {T A : Type} (f : T → A) : St T A := λ s, (f s, s).

Definition modify {T : Type} (f : T → T) : St T unit := λ s, (tt, f s).

Notation "'do' x <- m ; k" := (bind m (λ x, k))
  (at level 10, x name, m at level 100, k at level 200,
   format "'[v' 'do'  x  <-  m ; '/' k ']'").

(** [for x in l: body(i, x)], with [i] the position of [x], counted from
    [i0]. *)
Fixpoint for_each {T A : Type} (body : nat → A → St T unit) (i0 : nat) (l : list A)
  : St T unit :=
  match l with
  | [] => ret tt
  | x :: rest => do _ <- body i0 x; for_each body (S i0) rest
  end.

(* ================================================================== *)
(** * src/session_manager.py *)
(* ================================================================== *)

(** The values of the usage metadata of a history entry: the Python values
    that [json.dump] writes and [json.load] reads back as they were. *)
#[warnings="-register-all"]
Inductive jval : Type :=
  | JNull
  | JBool (b : bool)
  | JInt (z : Z)
  | JFloat (q : Q)
  | JStr (s : string)
  | JList (l : list jval)
  | JDict (d : gmap string jval).

(** One entry of [usage_history]:
    [{'chunk_id': .., 'timestamp': .., 'metadata': ..}]. *)
Record usage_record : Type := mk_usage_record {
  u_chunk_id : string;
  u_timestamp : string;
  u_metadata : gmap string jval
}.

(** The attributes of a [SessionManager] instance. *)
Record SessionManager : Type := mk_session {
  session_id : string;
  used_chunk_ids : gset string;
  usage_history : list usage_record
}.

(** The dictionary written to, and read from, a session file. Every key may
    be absent from a file: [load_session] reads each with [dict.get]. Files
    that do not parse, or whose values have other types, are not
    represented. *)
Record session_data : Type := mk_session_data {
  d_session_id : option string;
  d_used_chunk_ids : option (list string);
  d_usage_history : option (list usage_record);
  d_usage_count : option nat
}.

(** The files on disk, by path. *)
Abbreviation filesystem := (gmap string session_data).

(** [SessionManager.__init__]; [generated] is what [_generate_session_id]
    reads off the clock. *)
Definition session_init (sid : option string) (generated : string) : SessionManager :=
  {| session_id := if Py.truthy_opt_str sid then default generated sid else generated;
     used_chunk_ids := ∅;
     usage_history := [] |}.

(** [mark_used]; [now] is [datetime.now().isoformat()]. *)
Definition mark_used (chunk_id : string) (metadata : option (gmap string jval))
    (now : string) (self : SessionManager) : SessionManager :=
  let used := {[chunk_id]} ∪ used_chunk_ids self in
  let usage_record :=
    {| u_chunk_id := chunk_id;
       u_timestamp := now;
       u_metadata := default ∅ metadata |} in
  {| session_id := session_id self;
     used_chunk_ids := used;
     usage_history := usage_history self ++ [usage_record] |}.

Definition is_used (chunk_id : string) (self : SessionManager) : bool :=
  bool_decide (chunk_id ∈ used_chunk_ids self).

(** [list(self.used_chunk_ids)]: a new list, in the set's own order. *)
Definition get_exclusion_list (self : SessionManager) : list string :=
  elements (used_chunk_ids self).

Definition get_usage_count (self : SessionManager) : nat :=
  size (used_chunk_ids self).

Definition get_usage_history (self : SessionManager) : list usage_record :=
  usage_history self.

Definition reset (self : SessionManager) : SessionManager :=
  {| session_id := session_id self;
     used_chunk_ids := ∅;
     usage_history := [] |}.

(** The [session_data] dictionary built by [save_session]. *)
Definition session_to_data (self : SessionManager) : session_data :=
  {| d_session_id := Some (session_id self);
     d_used_chunk_ids := Some (elements (used_chunk_ids self));
     d_usage_history := Some (usage_history self);
     d_usage_count := Some (size (used_chunk_ids self)) |}.

(** [save_session]: the session is only read, the file is (over)written. *)
Definition save_session (output_path : string) (self : SessionManager)
    (fs : filesystem) : filesystem :=
  <[output_path := session_to_data self]> fs.

(** The three assignments of [load_session]. *)
Definition session_of_data (session_data : session_data) (self : SessionManager)
  : SessionManager :=
  {| session_id := default (session_id self) (d_session_id session_data);
     used_chunk_ids := list_to_set (default [] (d_used_chunk_ids session_data));
     usage_history := default [] (d_usage_history session_data) |}.

(** [load_session]: [open] raises when the file does not exist, before any
    attribute is assigned. *)
Definition load_session (input_path : string) (self : SessionManager)
    (fs : filesystem) : outcome SessionManager :=
  match fs !! input_path with
  | None => Raise (FileNotFoundError input_path)
  | Some session_data => Ok (session_of_data session_data self)
  end.

Definition merge_session (other_session : SessionManager) (self : SessionManager)
  : SessionManager :=
  {| session_id := session_id self;
     used_chunk_ids := used_chunk_ids self ∪ used_chunk_ids other_session;
     usage_history := usage_history self ++ usage_history other_session |}.

(** ** Sequences of tracker operations *)

Inductive session_op : Type :=
  | OpMarkUsed (chunk_id : string) (metadata : option (gmap string jval)) (now : string)
  | OpReset
  | OpMerge (other_session : SessionManager)
  | OpSave (output_path : string)
  | OpLoad (input_path : string).

(** One operation on a tracker and the disk. A raised exception leaves both
    as they were. *)
Definition session_step (w : SessionManager * filesystem) (o : session_op)
  : SessionManager * filesystem :=
  let '(self, fs) := w in
  match o with
  | OpMarkUsed chunk_id metadata now => (mark_used chunk_id metadata now self, fs)
  | OpReset => (reset self, fs)
  | OpMerge other_session => (merge_session other_session self, fs)
  | OpSave output_path => (self, save_session output_path self fs)
  | OpLoad input_path =>
      match load_session input_path self fs with
      | Ok self' => (self', fs)
      | Raise _ => (self, fs)
      end
  end.

Definition session_run (ops : list session_op) (w : SessionManager * filesystem)
  : SessionManager * filesystem :=
  foldl session_step w ops.

(** The ids that appear in a history. *)
Definition history_ids (h : list usage_record) : gset string :=
  list_to_set (u_chunk_id <$> h).

(** [used_chunk_ids] is exactly the set of ids of [usage_history]. *)
Definition session_consistent (self : SessionManager) : Prop :=
  used_chunk_ids self = history_ids (usage_history self).

(** The same agreement between the two fields of a session file. *)
Definition data_consistent (d : session_data) : Prop :=
  list_to_set (default [] (d_used_chunk_ids d))
  = history_ids (default [] (d_usage_history d)).

(** The operand of a merge is a consistent session. *)
Definition op_consistent (o : session_op) : Prop :=
  match o with
  | OpMerge other_session => session_consistent other_session
  | _ => True
  end.

(** The invariant carried along a run: the tracker is consistent and so is
    every file on disk. *)
Definition world_consistent (w : SessionManager * filesystem) : Prop :=
  session_consistent w.1 ∧ map_Forall (λ _ d, data_consistent d) w.2.

(* ================================================================== *)
(** * src/quote_database.py: ingestion *)
(* ================================================================== *)

(** The values a chunk dictionary holds. *)
#[warnings="-register-all"]
Inductive pyval : Type :=
  | PNone
  | PBool (b : bool)
  | PInt (z : Z)
  | PFloat (q : Q)
  | PStr (s : string)
  | PList (l : list pyval).

(** Python's truth test. *)
Definition truthy (v : pyval) : bool :=
  match v with
  | PNone => false
  | PBool b => b
  | PInt z => negb (z =? 0)%Z
  | PFloat q => negb (Qeq_bool q 0)
  | PStr s => Py.truthy_str s
  | PList l => match l with [] => false | _ :: _ => true end
  end.

(** [str(v)]: a [str] is returned as it is; how Python prints any other
    value is left to [repr]. *)
Definition py_str (repr : pyval → string) (v : pyval) : string :=
  match v with
  | PStr s => s
  | _ => repr v
  end.

(** A chunk is a dictionary. *)
Abbreviation chunk := (gmap string pyval).

(** What [_prepare_metadata] stores for one value of the chunk. *)
Definition prepare_value (repr : pyval → string) (value : pyval) : option string :=
  match value with
  | PList l => Some (Py.join "," (py_str repr <$> l))
  | PNone => None
  | _ => Some (py_str repr value)
  end.

(** [_prepare_metadata]: the keys ['embedding'] and ['chunk_id'] are
    skipped, lists are joined with commas, [None] values are dropped and
    every other value is converted with [str]. *)
Definition _prepare_metadata (repr : pyval → string) (chunk : chunk)
  : gmap string string :=
  omap (prepare_value repr) (delete "chunk_id" (delete "embedding" chunk)).

(** The arguments of one [collection.add] call: four parallel lists. *)
Record add_request : Type := mk_add_request {
  ids : list pyval;
  embeddings : list pyval;
  documents : list pyval;
  metadatas : list (gmap string string)
}.

Definition add_request_empty : add_request :=
  {| ids := []; embeddings := []; documents := []; metadatas := [] |}.

(** One round of the loop of [add_chunks]: [None] when the chunk is skipped,
    otherwise the request with the chunk appended; [chunk['chunk_text']]
    raises when the key is absent. *)
Definition add_chunks_step (repr : pyval → string) (acc : add_request) (chunk : chunk)
  : outcome add_request :=
  let chunk_id := default PNone (chunk !! "chunk_id") in
  if negb (truthy chunk_id) then Ok acc
  else
    let embedding := default PNone (chunk !! "embedding") in
    if negb (truthy embedding) then Ok acc
    else
      let metadata := _prepare_metadata repr chunk in
      match chunk !! "chunk_text" with
      | None => Raise (KeyError "chunk_text")
      | Some chunk_text =>
          Ok {| ids := ids acc ++ [chunk_id];
                embeddings := embeddings acc ++ [embedding];
                documents := documents acc ++ [chunk_text];
                metadatas := metadatas acc ++ [metadata] |}
      end.

Fixpoint add_chunks_loop (repr : pyval → string) (acc : add_request)
    (chunks : list chunk) : outcome add_request :=
  match chunks with
  | [] => Ok acc
  | chunk :: rest =>
      match add_chunks_step repr acc chunk with
      | Ok acc' => add_chunks_loop repr acc' rest
      | Raise e => Raise e
      end
  end.

(** [add_chunks]: the result is the [collection.add] call it makes, if any. *)
Definition add_chunks (repr : pyval → string) (chunks : list chunk)
  : outcome (option add_request) :=
  match chunks with
  | [] => Ok None
  | _ :: _ =>
      match add_chunks_loop repr add_request_empty chunks with
      | Raise e => Raise e
      | Ok req =>
          match ids req with
          | [] => Ok None
          | _ :: _ => Ok (Some req)
          end
      end
  end.

(** The chunks that [add_chunks] does not skip. *)
Definition accepted (chunk : chunk) : bool :=
  truthy (default PNone (chunk !! "chunk_id"))
  && truthy (default PNone (chunk !! "embedding")).

(** The request that submits exactly the chunks of [chunks], in order. *)
Definition request_of (repr : pyval → string) (chunks : list chunk) : add_request :=
  {| ids := (λ c : chunk, default PNone (c !! "chunk_id")) <$> chunks;
     embeddings := (λ c : chunk, default PNone (c !! "embedding")) <$> chunks;
     documents := (λ c : chunk, default PNone (c !! "chunk_text")) <$> chunks;
     metadatas := _prepare_metadata repr <$> chunks |}.

(* ================================================================== *)
(** * src/quote_selector.py *)
(* ================================================================== *)

(** One formatted query result, as built by [query_by_text]; [D] is the
    type of distances. *)
Record Result (D : Type) : Type := mk_result {
  r_chunk_id : string;
  r_chunk_text : string;
  r_metadata : gmap string string;
  r_distance : D
}.

Arguments mk_result {D} _ _ _ _.
Arguments r_chunk_id {D} _.
Arguments r_chunk_text {D} _.
Arguments r_metadata {D} _.
Arguments r_distance {D} _.

(** [QuoteDatabase.query_by_text] with the embedding generator fixed:
    query text, [n_results] and [where] to the formatted results. *)
Definition Database (D : Type) : Type :=
  string → Z → option (gmap string string) → list (Result D).

(** The keyword arguments of [get_shakespeare_quote]. *)
Record kwargs : Type := mk_kwargs {
  character_type : option (list string);
  emotional_tone : option (list string);
  themes : option (list string);
  context_type : option string;
  chunk_type : option string;
  formality_level : option string;
  play_title : option string;
  exclude_chunk_ids : option (list string);
  max_results : Z
}.

(** The defaults of the signature. *)
Definition kwargs_default : kwargs :=
  {| character_type := None; emotional_tone := None; themes := None;
     context_type := None; chunk_type := None; formality_level := None;
     play_title := None; exclude_chunk_ids := None; max_results := 5 |}.

(** [if value: where[key] = value]. *)
Definition set_if_truthy (key : string) (value : option string)
    (where_ : gmap string string) : gmap string string :=
  match value with
  | Some v => if Py.truthy_str v then <[key := v]> where_ else where_
  | None => where_
  end.

(** [where if where else None]. *)
Definition none_if_empty (where_ : gmap string string) : option (gmap string string) :=
  if decide (where_ = ∅) then None else Some where_.

(** [_build_where_filters]: [character_type] is received and not used. *)
Definition _build_where_filters (character_type : option (list string))
    (context_type chunk_type formality_level play_title : option string)
  : option (gmap string string) :=
  let where_ := ∅ in
  let where_ := set_if_truthy "context" context_type where_ in
  let where_ := set_if_truthy "chunk_type" chunk_type where_ in
  let where_ := set_if_truthy "formality_level" formality_level where_ in
  let where_ := set_if_truthy "play_title" play_title where_ in
  none_if_empty where_.

(** [where_filters if where_filters else None], on the optional dictionary
    that [_build_where_filters] returns. *)
Definition where_or_none (where_filters : option (gmap string string))
  : option (gmap string string) :=
  match where_filters with
  | Some where_ => none_if_empty where_
  | None => None
  end.

Section Selector.

Context {D : Type}.

(** The list-valued test of the post-filter on one metadata field:
    [metadata.get(field, '').split(',')] against the requested values. *)
Definition field_matches (field : string) (requested : list string)
    (metadata : gmap string string) : bool :=
  let result_values := Py.split "," (default "" (metadata !! field)) in
  Py.any_in requested result_values.

(** The body of the loop of [_post_filter_results]: [filtered] after the
    round for [result]. *)
Definition post_filter_step (all_exclusions : gset string)
    (emotional_tone themes : option (list string))
    (filtered : list (Result D)) (result : Result D) : list (Result D) :=
  let chunk_id := r_chunk_id result in
  if bool_decide (chunk_id ∈ all_exclusions) then filtered
  else
    let metadata := r_metadata result in
    if Py.truthy_list emotional_tone
       && negb (field_matches "emotional_tone" (default [] emotional_tone) metadata)
    then filtered
    else
      if Py.truthy_list themes
         && negb (field_matches "themes" (default [] themes) metadata)
      then filtered
      else filtered ++ [result].

(** [_post_filter_results], run against the bound session manager. *)
Definition _post_filter_results (results : list (Result D))
    (emotional_tone themes exclude_chunk_ids : option (list string))
  : St SessionManager (list (Result D)) :=
  do exclusion_list <- gets get_exclusion_list;
  let all_exclusions : gset string := list_to_set exclusion_list in
  let all_exclusions :=
    if Py.truthy_list exclude_chunk_ids
    then all_exclusions ∪ list_to_set (default [] exclude_chunk_ids)
    else all_exclusions in
  ret (foldl (post_filter_step all_exclusions emotional_tone themes) [] results).

(** [get_shakespeare_quote]. *)
Definition get_shakespeare_quote (database : Database D) (semantic_query : string)
    (kw : kwargs) : St SessionManager (list (Result D)) :=
  let where_filters :=
    _build_where_filters (character_type kw) (context_type kw) (chunk_type kw)
      (formality_level kw) (play_title kw) in
  let results :=
    database semantic_query (max_results kw * 3)%Z (where_or_none where_filters) in
  do filtered_results <-
    _post_filter_results results (emotional_tone kw) (themes kw) (exclude_chunk_ids kw);
  let filtered_results := Py.slice_to (max_results kw) filtered_results in
  ret filtered_results.

(** The usage metadata recorded by [select_and_mark_used]. *)
Definition usage_metadata (semantic_query : string) (result : Result D)
  : gmap string jval :=
  <["chunk_text" := JStr (r_chunk_text result)]> {["query" := JStr semantic_query]}.

(** [select_and_mark_used]; [clock i] is the time read when the [i]-th
    returned quote is marked. *)
Definition select_and_mark_used (database : Database D) (clock : nat → string)
    (semantic_query : string) (kw : kwargs) : St SessionManager (list (Result D)) :=
  do results <- get_shakespeare_quote database semantic_query kw;
  do _ <- for_each
            (λ i result,
               modify (mark_used (r_chunk_id result)
                         (Some (usage_metadata semantic_query result)) (clock i)))
            0 results;
  ret results.

(** One call of the orchestration loop: the index as it is at that moment,
    the clock, and the arguments. *)
Record call : Type := mk_call {
  call_database : Database D;
  call_clock : nat → string;
  call_query : string;
  call_kwargs : kwargs
}.

(** The candidates a call of [get_shakespeare_quote] receives from the
    index: the answer to the one query it issues. *)
Definition candidates (database : Database D) (semantic_query : string) (kw : kwargs)
  : list (Result D) :=
  database semantic_query (max_results kw * 3)%Z
    (where_or_none
       (_build_where_filters (character_type kw) (context_type kw) (chunk_type kw)
          (formality_level kw) (play_title kw))).

(** What the index answers to a call. *)
Definition call_candidates (c : call) : list (Result D) :=
  candidates (call_database c) (call_query c) (call_kwargs c).

Definition run_call (c : call) : St SessionManager (list (Result D)) :=
  select_and_mark_used (call_database c) (call_clock c) (call_query c) (call_kwargs c).

(** A sequence of [select_and_mark_used] calls against one session manager:
    the result list of every call, in call order. *)
Fixpoint run_calls (calls : list call) : St SessionManager (list (list (Result D))) :=
  match calls with
  | [] => ret []
  | c :: rest =>
      do results <- run_call c;
      do more <- run_calls rest;
      ret (results :: more)
  end.

End Selector.

Arguments call D : clear implicits.

(* ================================================================== *)
(** * Auxiliary definitions for the statements *)
(* ================================================================== *)

(** [c] occurs in [s]. *)
Fixpoint has_char (c : ascii) (s : string) : bool :=
  match s with
  | EmptyString => false
  | String c' rest => Ascii.eqb c' c || has_char c rest
  end.

(** The exclusion set of one retrieval: the session's used ids together
    with the caller's [exclude_chunk_ids]. *)
Definition exclusion_set (self : SessionManager) (exclude_chunk_ids : option (list string))
  : gset string :=
  used_chunk_ids self ∪ list_to_set (default [] exclude_chunk_ids).

(** The post-filter test on one requested list-valued filter: a filter
    that is absent or empty does not filter. *)
Definition filter_passes (field : string) (requested : option (list string))
    (metadata : gmap string string) : bool :=
  negb (Py.truthy_list requested)
  || field_matches field (default [] requested) metadata.

(** The candidates the post-filter keeps. *)
Definition keeps {D : Type} (all_exclusions : gset string)
    (emotional_tone themes : option (list string)) (result : Result D) : bool :=
  negb (bool_decide (r_chunk_id result ∈ all_exclusions))
  && filter_passes "emotional_tone" emotional_tone (r_metadata result)
  && filter_passes "themes" themes (r_metadata result).

(** The ids of a list of results. *)
Definition result_ids {D : Type} (results : list (Result D)) : list string :=
  r_chunk_id <$> results.

(** A rendering for chunks in which only strings are printed. *)
Definition repr_none : pyval → string := λ _, "".

(** ** Concrete inputs *)

(** A session file whose two fields disagree: an id is listed as used and
    the history is empty. *)
Definition stale_file : session_data :=
  {| d_session_id := Some "20260101_120000";
     d_used_chunk_ids := Some ["chunk_1"];
     d_usage_history := Some [];
     d_usage_count := Some 1 |}.

Definition stale_disk : filesystem := {["session.json" := stale_file]}.

(** A run that marks, saves, resets, loads what it saved and merges with
    another tracker. *)
Definition other_tracker : SessionManager :=
  mark_used "chunk_2" None "2026-01-01T12:00:05" (session_init (Some "other") "").

Definition sample_ops : list session_op :=
  [ OpMarkUsed "chunk_1" None "2026-01-01T12:00:00";
    OpSave "session.json";
    OpReset;
    OpLoad "session.json";
    OpMerge other_tracker ].

(** A quote whose metadata has neither [themes] nor [emotional_tone], and
    whose [character_type] is [commoner]. *)
Definition untagged_quote : Result Q :=
  mk_result "chunk_1" "To be, or not to be"
    (<["character_type" := "commoner"]> {["play_title" := "Hamlet"]}) 0.25%Q.

(** A quote tagged with the themes [love] and [fate]. *)
Definition tagged_quote : Result Q :=
  mk_result "chunk_2" "Love looks not with the eyes"
    (<["themes" := "love,fate"]> {["emotional_tone" := "loving"]}) 0.5%Q.

(** An index that answers every query with the same two quotes. *)
Definition sample_database : Database Q :=
  λ _ _ _, [untagged_quote; tagged_quote].

Definition sample_clock : nat → string := λ _, "2026-01-01T12:00:00".

(** [kw] with another [character_type]. *)
Definition with_character_type (ct : option (list string)) (kw : kwargs) : kwargs :=
  {| character_type := ct; emotional_tone := emotional_tone kw; themes := themes kw;
     context_type := context_type kw; chunk_type := chunk_type kw;
     formality_level := formality_level kw; play_title := play_title kw;
     exclude_chunk_ids := exclude_chunk_ids kw; max_results := max_results kw |}.

(** [kw] with another [max_results]. *)
Definition with_max_results (n : Z) (kw : kwargs) : kwargs :=
  {| character_type := character_type kw; emotional_tone := emotional_tone kw;
     themes := themes kw;
     context_type := context_type kw; chunk_type := chunk_type kw;
     formality_level := formality_level kw; play_title := play_title kw;
     exclude_chunk_ids := exclude_chunk_ids kw; max_results := n |}.

(** Two calls against the sample index: the first with a cap of one. *)
Definition sample_calls : list (call Q) :=
  [ mk_call sample_database sample_clock "the meaning of existence"
      (with_max_results 1 kwargs_default);
    mk_call sample_database sample_clock "love" kwargs_default ].

Definition fresh_session : SessionManager := session_init None "20260101_120000".

(** An index that lists the same quote twice in one answer. *)
Definition duplicate_database : Database Q :=
  λ _ _ _, [untagged_quote; untagged_quote].

(** A third quote and an index that answers with three quotes. *)
Definition third_quote : Result Q :=
  mk_result "chunk_3" "All the world's a stage"
    {["play_title" := "As You Like It"]} 0.75%Q.

Definition three_quote_database : Database Q :=
  λ _ _ _, [untagged_quote; tagged_quote; third_quote].

(** A session that has used [chunk_2]. *)
Definition used_session : SessionManager :=
  mark_used "chunk_2" None "2026-01-01T12:00:05" fresh_session.

(** The request [r1] followed by the entries of [r2]. *)
Definition add_request_app (r1 r2 : add_request) : add_request :=
  {| ids := ids r1 ++ ids r2;
     embeddings := embeddings r1 ++ embeddings r2;
     documents := documents r1 ++ documents r2;
     metadatas := metadatas r1 ++ metadatas r2 |}.

(** A complete chunk. *)
Definition good_chunk : chunk :=
  <["chunk_id" := PStr "test_1"]>
  (<["chunk_text" := PStr "To be, or not to be: that is the question"]>
  (<["embedding" := PList [PFloat 0.5; PFloat 0.25]]>
  (<["play_title" := PStr "Hamlet"]>
  {["themes" := PList [PStr "death"; PStr "existence"]]}))).

(** A chunk without the key ['embedding']. *)
Definition chunk_without_embedding : chunk :=
  <["chunk_id" := PStr "test_2"]>
  {["chunk_text" := PStr "All the world's a stage"]}.

(** A complete chunk whose list of themes is empty. *)
Definition chunk_without_themes : chunk :=
  <["chunk_id" := PStr "test_3"]>
  (<["chunk_text" := PStr "Exit, pursued by a bear"]>
  (<["embedding" := PList [PFloat 0.5; PFloat 0.25]]>
  {["themes" := PList []]})).

(* ================================================================== *)
(** * Further functions of src/session_manager.py *)
(* ================================================================== *)

(** The dictionary returned by [get_statistics]. *)
Record statistics : Type := mk_statistics {
  stat_session_id : string;
  total_chunks_used : nat;
  usage_events : nat;
  start_time : option string;
  last_usage : option string
}.

(** [get_statistics]: the two timestamps are [None] on an empty history. *)
Definition get_statistics (self : SessionManager) : statistics :=
  {| stat_session_id := session_id self;
     total_chunks_used := size (used_chunk_ids self);
     usage_events := length (usage_history self);
     start_time := u_timestamp <$> head (usage_history self);
     last_usage := u_timestamp <$> last (usage_history self) |}.

(** The operation writes no file: it is not a [save_session]. *)
Definition op_writes_no_file (o : session_op) : Prop :=
  match o with
  | OpSave _ => False
  | _ => True
  end.

(** [kw] with other list-valued filters and another exclusion list. *)
Definition with_post_filters (tone th exclude : option (list string)) (kw : kwargs)
  : kwargs :=
  {| character_type := character_type kw; emotional_tone := tone; themes := th;
     context_type := context_type kw; chunk_type := chunk_type kw;
     formality_level := formality_level kw; play_title := play_title kw;
     exclude_chunk_ids := exclude; max_results := max_results kw |}.

(** Default arguments with [exclude_chunk_ids = ["chunk_3"]]. *)
Definition kwargs_excluding : kwargs :=
  with_post_filters None None (Some ["chunk_3"]) kwargs_default.

(** The candidates of a call that pass its post-filter, in the order of the
    index. *)
Definition kept_candidates {D : Type} (database : Database D) (semantic_query : string)
    (kw : kwargs) (self : SessionManager) : list (Result D) :=
  filter (λ r, keeps (exclusion_set self (exclude_chunk_ids kw))
                 (emotional_tone kw) (themes kw) r = true)
    (candidates database semantic_query kw).

(** The history entry that [select_and_mark_used] writes for the [i]-th
    returned quote. *)
Definition usage_record_of {D : Type} (clock : nat → string) (semantic_query : string)
    (i : nat) (result : Result D) : usage_record :=
  {| u_chunk_id := r_chunk_id result;
     u_timestamp := clock i;
     u_metadata := usage_metadata semantic_query result |}.

(** The value [_build_where_filters] stores for one scalar filter. *)
Definition where_value (value : option string) : option string :=
  if Py.truthy_opt_str value then value else None.

(* ================================================================== *)
(** * src/metadata_extractor.py: themes and emotional tones *)
(* ================================================================== *)

(** [needle in haystack] for two strings. *)
Fixpoint substring_in (needle haystack : string) : bool :=
  String.prefix needle haystack
  || match haystack with
     | EmptyString => false
     | String _ rest => substring_in needle rest
     end.

(** [MetadataExtractor.THEMES], in the order of the dictionary. *)
Definition THEMES : list (string * list string) :=
  [ ("love", ["love"; "heart"; "affection"; "passion"; "beloved"; "romance"]);
    ("death", ["death"; "die"; "dead"; "grave"; "tomb"; "mortality"]);
    ("power", ["power"; "king"; "queen"; "throne"; "crown"; "rule"; "command"]);
    ("betrayal", ["betray"; "traitor"; "false"; "deceit"; "treachery"]);
    ("nature", ["nature"; "earth"; "sky"; "sun"; "moon"; "star"; "flower"; "tree"]);
    ("fate", ["fate"; "fortune"; "destiny"; "star"; "doom"]);
    ("revenge", ["revenge"; "vengeance"; "avenge"; "retribution"]);
    ("honor", ["honor"; "noble"; "virtue"; "worthy"; "dignity"]);
    ("madness", ["mad"; "insane"; "crazy"; "lunacy"; "wit"]);
    ("time", ["time"; "hour"; "day"; "night"; "moment"; "age"]);
    ("jealousy", ["jealous"; "envy"; "envious"; "green-eyed"]);
    ("ambition", ["ambition"; "aspire"; "desire"; "seek"]) ].

(** [MetadataExtractor.EMOTIONS], in the order of the dictionary. *)
Definition EMOTIONS : list (string * list string) :=
  [ ("joyful", ["joy"; "happy"; "merry"; "delight"; "glad"; "pleasure"]);
    ("melancholy", ["sad"; "sorrow"; "grief"; "woe"; "melancholy"; "heavy"]);
    ("angry", ["angry"; "rage"; "fury"; "wrath"; "mad"; "fierce"]);
    ("fearful", ["fear"; "afraid"; "terror"; "dread"; "fright"]);
    ("loving", ["love"; "dear"; "sweet"; "gentle"; "tender"; "fond"]);
    ("desperate", ["desperate"; "despair"; "hopeless"; "wretched"]);
    ("prideful", ["proud"; "pride"; "vain"; "glory"; "boast"]);
    ("contemptuous", ["scorn"; "contempt"; "despise"; "mock"; "disdain"]) ].

(** [any(keyword in text_lower for keyword in keywords)]. *)
Definition keyword_hit (text_lower : string) (keywords : list string) : bool :=
  existsb (λ keyword, substring_in keyword text_lower) keywords.

(** One round of the loop over a table: the tag is appended when one of
    its keywords occurs. *)
Definition collect_step (text_lower : string) (tags : list string)
    (entry : string * list string) : list string :=
  if keyword_hit text_lower entry.2 then tags ++ [entry.1] else tags.

(** The loop of [_extract_themes] and of [_extract_emotions]. *)
Definition collect_tags (table : list (string * list string)) (text_lower : string)
  : list string :=
  foldl (collect_step text_lower) [] table.

(** [x if x else [fallback]]. *)
Definition or_fallback (fallback : string) (tags : list string) : list string :=
  match tags with
  | [] => [fallback]
  | _ :: _ => tags
  end.

(** [_extract_themes]; [lower] is [str.lower]. *)
Definition _extract_themes (lower : string → string) (text : string) : list string :=
  let text_lower := lower text in
  let themes := collect_tags THEMES text_lower in
  or_fallback "general" themes.

(** [_extract_emotions]. *)
Definition _extract_emotions (lower : string → string) (text : string) : list string :=
  let text_lower := lower text in
  let emotions := collect_tags EMOTIONS text_lower in
  or_fallback "neutral" emotions.

(** The tags of a table whose keywords occur in the text. *)
Definition hit_tags (table : list (string * list string)) (text_lower : string)
  : list string :=
  fst <$> filter (λ entry, keyword_hit text_lower entry.2 = true) table.

(** [str.lower] on a text of ASCII characters. *)
Definition lower_ascii_char (c : ascii) : ascii :=
  let n := nat_of_ascii c in
  if (65 <=? n)%nat && (n <=? 90)%nat then ascii_of_nat (n + 32) else c.

Fixpoint lower_ascii (s : string) : string :=
  match s with
  | EmptyString => EmptyString
  | String c rest => String (lower_ascii_char c) (lower_ascii rest)
  end.

(** A chunk as the chunker builds it from a line, reduced to the fields the
    store and the post-filter read. *)
Definition extracted_chunk (text : string) : chunk :=
  <["chunk_id" := PStr "c0ffee"]>
  (<["chunk_text" := PStr text]>
  (<["themes" := PList (PStr <$> _extract_themes lower_ascii text)]>
  {["emotional_tone" := PList (PStr <$> _extract_emotions lower_ascii text)]})).

(* ================================================================== *)
(** * src/quote_database.py: formatting of query results *)
(* ================================================================== *)

(** The dictionary returned by [collection.query] for one query embedding:
    one row of ids, documents and metadatas per query, and the key
    ['distances'], which may be absent. *)
Record query_results (D : Type) : Type := mk_query_results {
  q_ids : list (list string);
  q_documents : list (list string);
  q_metadatas : list (list (gmap string string));
  q_distances : option (list (list D))
}.

Arguments mk_query_results {D} _ _ _ _.
Arguments q_ids {D} _.
Arguments q_documents {D} _.
Arguments q_metadatas {D} _.
Arguments q_distances {D} _.

(** The result of a computation that indexes lists. *)
Inductive indexed (A : Type) : Type :=
  | Indexed (a : A)
  | RaiseIndexError.

Arguments Indexed {A} a.
Arguments RaiseIndexError {A}.

Section QueryByText.

Context {D : Type}.

(** [rows[0][i]]; [None] when an index is out of range. *)
Definition cell {A : Type} (rows : list (list A)) (i : nat) : option A :=
  row ← rows !! 0; row !! i.

(** The dictionary built for position [i]; the distance is [None] when the
    results have no ['distances']. *)
Definition format_result (results : query_results D) (i : nat)
  : option (Result (option D)) :=
  chunk_id ← cell (q_ids results) i;
  chunk_text ← cell (q_documents results) i;
  metadata ← cell (q_metadatas results) i;
  distance ← match q_distances results with
             | Some distances => Some <$> cell distances i
             | None => Some None
             end;
  Some (mk_result chunk_id chunk_text metadata distance).

(** The formatting loop of [query_by_text]. *)
Definition format_results (results : query_results D)
  : indexed (list (Result (option D))) :=
  match q_ids results with
  | (_ :: _) as ids0 :: _ =>
      match mapM (format_result results) (seq 0 (length ids0)) with
      | Some formatted_results => Indexed formatted_results
      | None => RaiseIndexError
      end
  | _ => Indexed []
  end.

(** [query_by_text]; [collection_query] is the index queried with the
    embedding of the text. *)
Definition query_by_text
    (collection_query : string → Z → option (gmap string string) → query_results D)
    (query_text : string) (n_results : Z) (where_ : option (gmap string string))
  : indexed (list (Result (option D))) :=
  let results := collection_query query_text n_results where_ in
  format_results results.

End QueryByText.

(* ================================================================== *)
(** * src/utils.py *)
(* ================================================================== *)

Section CleanText.

(** A text is a sequence of characters of type [C]; [is_space] is the
    class of characters that [\s] and [str.strip] treat as white space,
    [space] is [' ']. *)
Context {C : Type} (is_space : C → bool) (space : C).

(** [re.sub(r'\s+', ' ', text)]: every maximal run of white space becomes
    one [' ']; [in_run] tells that the run has been replaced already. *)
Fixpoint sub_spaces_from (in_run : bool) (text : list C) : list C :=
  match text with
  | [] => []
  | c :: rest =>
      if is_space c
      then if in_run then sub_spaces_from true rest
           else space :: sub_spaces_from true rest
      else c :: sub_spaces_from false rest
  end.

Definition sub_spaces (text : list C) : list C := sub_spaces_from false text.

(** [text.lstrip()]. *)
Fixpoint lstrip (text : list C) : list C :=
  match text with
  | [] => []
  | c :: rest => if is_space c then lstrip rest else text
  end.

(** [text.rstrip()]. *)
Fixpoint rstrip (text : list C) : list C :=
  match text with
  | [] => []
  | c :: rest =>
      match rstrip rest with
      | [] => if is_space c then [] else [c]
      | stripped => c :: stripped
      end
  end.

(** [text.strip()]. *)
Definition strip (text : list C) : list C := rstrip (lstrip text).

(** [clean_text]. *)
Definition clean_text (text : list C) : list C :=
  let text := sub_spaces text in
  let text := strip text in
  text.

(** Every white-space character of the text is a [' '] that does not
    follow another white-space character; [after_space] tells that the
    text comes after one. *)
Fixpoint single_spaced (after_space : bool) (text : list C) : Prop :=
  match text with
  | [] => True
  | c :: rest =>
      if is_space c
      then after_space = false ∧ c = space ∧ single_spaced true rest
      else single_spaced false rest
  end.

(** The first and the last character are not white space. *)
Definition trimmed (text : list C) : Prop :=
  (∀ c, head text = Some c → is_space c = false)
  ∧ (∀ c, last text = Some c → is_space c = false).

End CleanText.

(** A byte of the vowels ['aeiouy']. *)
Definition is_vowel (char : ascii) : bool :=
  existsb (Ascii.eqb char) ["a"; "e"; "i"; "o"; "u"; "y"]%char.

(** The loop of [count_syllables] over the characters of the word. *)
Fixpoint count_groups (syllable_count : nat) (previous_was_vowel : bool) (word : string)
  : nat :=
  match word with
  | EmptyString => syllable_count
  | String char rest =>
      let is_vowel := is_vowel char in
      let syllable_count :=
        if is_vowel && negb previous_was_vowel then syllable_count + 1
        else syllable_count in
      count_groups syllable_count is_vowel rest
  end.

(** [word.endswith('e')]. *)
Fixpoint ends_with_e (word : string) : bool :=
  match word with
  | EmptyString => false
  | String c EmptyString => Ascii.eqb c "e"
  | String _ rest => ends_with_e rest
  end.

(** [word[:-1]]. *)
Fixpoint drop_last (word : string) : string :=
  match word with
  | EmptyString => EmptyString
  | String _ EmptyString => EmptyString
  | String c rest => String c (drop_last rest)
  end.

(** [count_syllables]; [lower] is [str.lower] and [strip_str] is
    [str.strip]. *)
Definition count_syllables (lower strip_str : string → string) (word : string) : nat :=
  let word := strip_str (lower word) in
  if String.eqb word "" then 0
  else
    let word := if ends_with_e word then drop_last word else word in
    1 `max` count_groups 0 false word.

(** The number of vowels of a word. *)
Fixpoint count_vowels (word : string) : nat :=
  match word with
  | EmptyString => 0
  | String c rest => (if is_vowel c then 1 else 0) + count_vowels rest
  end.

(* ================================================================== *)
(** * src/chunker.py *)
(* ================================================================== *)

(** [_determine_context]; the argument [character] is not read. *)
Definition _determine_context (speeches : list (string * string)) (character : string)
  : string :=
  let characters : gset string := list_to_set (fst <$> speeches) in
  if decide (size characters = 1%nat) then "soliloquy" else "dialogue".

(** The window sizes of [_create_fragment_chunks], in the order tried. *)
Definition window_sizes : list nat := [8; 6; 5; 4; 3]%nat.

Section FragmentChunks.

(** [split_words] is [str.split()], [clean] is [clean_text], [meaningful]
    is [_is_meaningful_fragment], and [make_chunk] builds the chunk of a
    fragment ([_generate_chunk_id] and [extract_metadata]). *)
Context {A : Type} (split_words : string → list string) (clean : string → string)
  (meaningful : string → bool) (make_chunk : string → A).

(** The fragment at position [i] for a window size:
    [' '.join(words[i:i + window_size])], cleaned. *)
Definition fragment_at (words : list string) (window_size i : nat) : string :=
  clean (Py.join " " (take window_size (drop i words))).

(** The body of the inner loop: the chunks appended for position [i]. *)
Definition fragment_chunk (words : list string) (window_size i : nat) : list A :=
  let fragment := fragment_at words window_size i in
  if meaningful fragment then [make_chunk fragment] else [].

(** [_create_fragment_chunks]: [range(len(words) - window_size + 1)] is
    empty when the window is longer than the speech. *)
Definition _create_fragment_chunks (speech_text : string) : list A :=
  let words := split_words speech_text in
  window_size ← window_sizes;
  i ← seq 0 (length words + 1 - window_size);
  fragment_chunk words window_size i.

End FragmentChunks.

(* ================================================================== *)
(** * Properties of the session tracker *)
(* ================================================================== *)

Section SessionProperties.

Implicit Types (self other : SessionManager) (fs : filesystem).

Lemma history_ids_app (h1 h2 : list usage_record) :
  history_ids (h1 ++ h2) = history_ids h1 ∪ history_ids h2.
Proof. unfold history_ids. by rewrite fmap_app, list_to_set_app_L. Qed.

Lemma session_init_consistent sid generated :
  session_consistent (session_init sid generated).
Proof. reflexivity. Qed.

Lemma mark_used_consistent chunk_id metadata now self :
  session_consistent self →
  session_consistent (mark_used chunk_id metadata now self).
Proof.
  unfold session_consistent, mark_used. cbn [used_chunk_ids usage_history].
  intros ->. rewrite history_ids_app, (comm_L (∪)). f_equal.
  unfold history_ids. by rewrite list_fmap_singleton, list_to_set_singleton_L.
Qed.

Lemma reset_consistent self : session_consistent (reset self).
Proof. reflexivity. Qed.

Lemma merge_session_consistent other self :
  session_consistent other → session_consistent self →
  session_consistent (merge_session other self).
Proof.
  unfold session_consistent, merge_session. cbn [used_chunk_ids usage_history].
  intros -> ->. by rewrite history_ids_app.
Qed.

Lemma session_to_data_consistent self :
  session_consistent self → data_consistent (session_to_data self).
Proof.
  unfold session_consistent, data_consistent, session_to_data.
  simpl. intros <-.
  apply list_to_set_elements_L.
Qed.

Lemma session_of_data_consistent d self :
  data_consistent d → session_consistent (session_of_data d self).
Proof. done. Qed.

Lemma session_step_consistent w o :
  op_consistent o → world_consistent w → world_consistent (session_step w o).
Proof.
  destruct w as [self fs]. intros Ho [Hs Hfs]. cbn in Hs, Hfs.
  destruct o as [chunk_id metadata now | | other | output_path | input_path]; cbn.
  - split; [by apply mark_used_consistent | done].
  - split; [apply reset_consistent | done].
  - split; [by apply merge_session_consistent | done].
  - split; [done |]. cbn. unfold save_session.
    apply map_Forall_insert_2; [by apply session_to_data_consistent | done].
  - unfold load_session. destruct (fs !! input_path) as [d |] eqn:Hd; [| done].
    split; [| done]. cbn. apply session_of_data_consistent. by eapply Hfs.
Qed.

Lemma session_run_consistent ops w :
  Forall op_consistent ops → world_consistent w →
  world_consistent (session_run ops w).
Proof.
  unfold session_run. intros Hops. revert w.
  induction Hops as [| o ops Ho _ IH]; intros w Hw; [done |].
  cbn. apply IH. by apply session_step_consistent.
Qed.

(** C3, as amended: in every state reached from a fresh session by
    [mark_used], [reset], [merge_session] with a consistent session,
    [save_session] and [load_session], [used_chunk_ids] is exactly the set of
    ids of [usage_history], provided every session file that is on disk at
    the start has a [used_chunk_ids] list that agrees with its
    [usage_history] (as every file written by [save_session] from a
    consistent session has). *)
Theorem session_invariant_reachable sid generated fs ops :
  map_Forall (λ _ d, data_consistent d) fs →
  Forall op_consistent ops →
  session_consistent (session_run ops (session_init sid generated, fs)).1.
Proof.
  intros Hfs Hops.
  apply (session_run_consistent ops (session_init sid generated, fs) Hops).
  split; [apply session_init_consistent | exact Hfs].
Qed.

Lemma session_invariant_reachable_witness :
  map_Forall (λ _ d, data_consistent d) (∅ : filesystem)
  ∧ Forall op_consistent sample_ops
  ∧ session_consistent
      (session_run sample_ops (session_init None "20260101_120000", ∅)).1.
Proof.
  assert (Hfs : map_Forall (λ _ d, data_consistent d) (∅ : filesystem)).
  { apply map_Forall_empty. }
  assert (Hops : Forall op_consistent sample_ops).
  { repeat constructor. }
  split; [exact Hfs | split; [exact Hops |]].
  exact (session_invariant_reachable None "20260101_120000" ∅ sample_ops Hfs Hops).
Defined.

(** C3, as stated, fails: [load_session] assigns both fields from the file
    and checks neither against the other, so loading a file whose
    [used_chunk_ids] lists an id that its [usage_history] does not mention
    leaves the tracker with that disagreement. *)
Lemma load_session_breaks_invariant :
  Forall op_consistent [OpLoad "session.json"]
  ∧ ¬ session_consistent
        (session_run [OpLoad "session.json"]
           (session_init None "20260101_120000", stale_disk)).1.
Proof.
  split; [repeat constructor |].
  unfold session_run, stale_disk. cbn [foldl session_step].
  unfold load_session. rewrite lookup_singleton_eq. cbn [fst].
  unfold session_consistent, session_of_data, stale_file, history_ids.
  simpl. intros Heq.
  assert (Hin : "chunk_1" ∈ (∅ : gset string)).
  { rewrite <- Heq. apply elem_of_union_l. by apply elem_of_singleton. }
  exact (not_elem_of_empty _ Hin).
Qed.


End SessionProperties.

(* ================================================================== *)
(** * Properties of the Python primitives *)
(* ================================================================== *)

Section PyProperties.

Lemma slice_to_prefix {A : Type} (stop : Z) (l : list A) :
  Py.slice_to stop l `prefix_of` l.
Proof. unfold Py.slice_to. destruct (0 <=? stop)%Z; apply prefix_take. Qed.

Lemma slice_to_sublist {A : Type} (stop : Z) (l : list A) :
  Py.slice_to stop l `sublist_of` l.
Proof. unfold Py.slice_to. destruct (0 <=? stop)%Z; apply sublist_take. Qed.

Lemma slice_to_length {A : Type} (stop : Z) (l : list A) :
  (0 ≤ stop)%Z → (Z.of_nat (length (Py.slice_to stop l)) ≤ stop)%Z.
Proof.
  intros Hstop. unfold Py.slice_to.
  destruct (Z.leb_spec 0 stop) as [_ | Hneg]; [| lia].
  rewrite length_take. lia.
Qed.

Lemma split_not_nil sep s : Py.split sep s ≠ [].
Proof.
  destruct s as [| c rest]; cbn -[Ascii.eqb]; [done |].
  destruct (Ascii.eqb c sep); [done |]. by destruct (Py.split sep rest).
Qed.

(** A string without the separator is its own single part. *)
Lemma split_no_sep sep s : has_char sep s = false → Py.split sep s = [s].
Proof.
  induction s as [| c rest IH]; cbn -[Ascii.eqb]; [done |].
  intros [Hc Hrest]%orb_false_iff. rewrite Hc, (IH Hrest). done.
Qed.

(** Splitting [a + sep + b] when [a] has no separator. *)
Lemma split_app_sep sep a b :
  has_char sep a = false →
  Py.split sep (a +:+ String sep b) = a :: Py.split sep b.
Proof.
  induction a as [| c rest IH].
  - intros _. change ("" +:+ String sep b) with (String sep b).
    cbn -[Ascii.eqb]. by rewrite Ascii.eqb_refl.
  - change (String c rest +:+ String sep b) with (String c (rest +:+ String sep b)).
    cbn -[Ascii.eqb]. intros [Hc Hrest]%orb_false_iff. by rewrite Hc, (IH Hrest).
Qed.

(** [split] undoes [join] on a non-empty list of separator-free strings. *)
Lemma split_join (l : list string) :
  l ≠ [] → Forall (λ s, has_char "," s = false) l →
  Py.split "," (Py.join "," l) = l.
Proof.
  intros Hne Hl. induction Hl as [| x l Hx Hl IH]; [done |].
  destruct l as [| y l].
  - cbn. by apply split_no_sep.
  - change (Py.join "," (x :: y :: l)) with (x +:+ String "," (Py.join "," (y :: l))).
    rewrite (split_app_sep _ _ _ Hx). f_equal. by apply IH.
Qed.

Lemma any_in_true (needles haystack : list string) :
  Py.any_in needles haystack = true ↔ ∃ x, x ∈ needles ∧ x ∈ haystack.
Proof.
  unfold Py.any_in, Py.contains. rewrite existsb_exists. split.
  - intros (x & Hx%list_elem_of_In & Hin%bool_decide_eq_true). eauto.
  - intros (x & Hx & Hin). exists x. split; [by apply list_elem_of_In |].
    by apply bool_decide_eq_true.
Qed.

End PyProperties.

(* ================================================================== *)
(** * Properties of the quote selector *)
(* ================================================================== *)

Section SelectorProperties.

Context {D : Type}.

Implicit Types (self : SessionManager) (results : list (Result D))
  (database : Database D) (kw : kwargs).

(** One round of the loop appends the candidate exactly when [keeps]. *)
Lemma post_filter_step_keeps E tone th (filtered : list (Result D)) (result : Result D) :
  post_filter_step E tone th filtered result
  = filtered ++ (if keeps E tone th result then [result] else []).
Proof.
  unfold post_filter_step, keeps, filter_passes.
  destruct (bool_decide (r_chunk_id result ∈ E)); cbn; [by rewrite app_nil_r |].
  destruct (Py.truthy_list tone); cbn.
  - destruct (field_matches "emotional_tone" _ _); cbn; [| by rewrite app_nil_r].
    destruct (Py.truthy_list th); cbn; [| done].
    destruct (field_matches "themes" _ _); cbn; [done | by rewrite app_nil_r].
  - destruct (Py.truthy_list th); cbn; [| done].
    destruct (field_matches "themes" _ _); cbn; [done | by rewrite app_nil_r].
Qed.

(** The loop of [_post_filter_results] is a filter that keeps the order. *)
Lemma post_filter_loop E tone th results (filtered : list (Result D)) :
  foldl (post_filter_step E tone th) filtered results
  = filtered ++ filter (λ r, keeps E tone th r = true) results.
Proof.
  revert filtered.
  induction results as [| r results IH]; intros filtered; cbn [foldl].
  - by rewrite filter_nil, app_nil_r.
  - rewrite IH, post_filter_step_keeps, filter_cons.
    destruct (keeps E tone th r) eqn:Hk.
    + rewrite decide_True by done. by rewrite <- app_assoc.
    + rewrite decide_False by done. by rewrite app_nil_r.
Qed.

(** The exclusion set built at the top of [_post_filter_results]. *)
Lemma all_exclusions_eq self (exclude : option (list string)) :
  (if Py.truthy_list exclude
   then list_to_set (get_exclusion_list self) ∪ list_to_set (default [] exclude)
   else list_to_set (get_exclusion_list self))
  = exclusion_set self exclude.
Proof.
  unfold exclusion_set, get_exclusion_list. rewrite list_to_set_elements_L.
  destruct exclude as [[| x l] |]; cbn; try done.
  all: by rewrite (right_id_L ∅ (∪)).
Qed.

Lemma post_filter_results_run results tone th exclude self :
  _post_filter_results results tone th exclude self
  = (filter (λ r, keeps (exclusion_set self exclude) tone th r = true) results, self).
Proof.
  unfold _post_filter_results, bind, gets, ret.
  by rewrite all_exclusions_eq, post_filter_loop.
Qed.

Lemma get_shakespeare_quote_run database semantic_query kw self :
  get_shakespeare_quote database semantic_query kw self
  = (Py.slice_to (max_results kw)
       (filter (λ r, keeps (exclusion_set self (exclude_chunk_ids kw))
                       (emotional_tone kw) (themes kw) r = true)
          (candidates database semantic_query kw)),
     self).
Proof.
  unfold get_shakespeare_quote, bind, ret. by rewrite post_filter_results_run.
Qed.

Lemma get_shakespeare_quote_sublist database semantic_query kw self :
  (get_shakespeare_quote database semantic_query kw self).1
  `sublist_of` candidates database semantic_query kw.
Proof.
  rewrite get_shakespeare_quote_run. cbn [fst].
  etrans; [apply slice_to_sublist | apply sublist_filter].
Qed.

(** Every returned quote passed the post-filter. *)
Lemma get_shakespeare_quote_keeps database semantic_query kw self r :
  r ∈ (get_shakespeare_quote database semantic_query kw self).1 →
  keeps (exclusion_set self (exclude_chunk_ids kw)) (emotional_tone kw) (themes kw) r
  = true.
Proof.
  rewrite get_shakespeare_quote_run. cbn [fst]. intros Hr.
  eapply elem_of_sublist in Hr; [| apply slice_to_sublist].
  by apply list_elem_of_filter in Hr as [Hk _].
Qed.

(** C8: [get_shakespeare_quote] leaves the bound session manager as it
    found it, whatever the index, the query, the filters, the exclusion
    list and the cap. *)
Theorem get_shakespeare_quote_session_unchanged database semantic_query kw self :
  (get_shakespeare_quote database semantic_query kw self).2 = self.
Proof. by rewrite get_shakespeare_quote_run. Qed.

(** C5: with a cap [max_results = N] that is a natural number, no more than
    [N] results are returned, however many candidates the index answers
    with. *)
Theorem get_shakespeare_quote_cap database semantic_query kw self :
  (0 ≤ max_results kw)%Z →
  (Z.of_nat (length (get_shakespeare_quote database semantic_query kw self).1)
   ≤ max_results kw)%Z.
Proof.
  intros Hcap. rewrite get_shakespeare_quote_run. cbn [fst].
  by apply slice_to_length.
Qed.

Lemma StronglySorted_sublist {A : Type} (R : relation A) (l1 l2 : list A) :
  l1 `sublist_of` l2 → StronglySorted R l2 → StronglySorted R l1.
Proof.
  induction 1 as [| x l1 l2 Hsub IH | x l1 l2 Hsub IH]; intros Hs.
  - constructor.
  - apply StronglySorted_inv in Hs as [Hs Hall]. constructor; [by apply IH |].
    apply Forall_forall. intros y Hy. eapply Forall_forall in Hall; [done |].
    by eapply elem_of_sublist.
  - apply StronglySorted_inv in Hs as [Hs _]. by apply IH.
Qed.

(** C6: the results are a subsequence of the candidates, in the candidates'
    order; when the candidates are non-decreasing in distance, so are the
    results. The order [le] on distances only has to be transitive. *)
Theorem get_shakespeare_quote_order (le : relation D) database semantic_query kw self :
  Transitive le →
  Sorted le (r_distance <$> candidates database semantic_query kw) →
  (get_shakespeare_quote database semantic_query kw self).1
    `sublist_of` candidates database semantic_query kw
  ∧ Sorted le (r_distance <$> (get_shakespeare_quote database semantic_query kw self).1).
Proof.
  intros Htrans Hsorted.
  pose proof (get_shakespeare_quote_sublist database semantic_query kw self) as Hsub.
  split; [exact Hsub |].
  apply StronglySorted_Sorted.
  eapply StronglySorted_sublist; [by apply fmap_sublist |].
  by apply Sorted_StronglySorted.
Qed.

(** ** No repeat within a session *)

(** The marking loop of [select_and_mark_used] adds exactly the ids of the
    results to [used_chunk_ids]. *)
Lemma for_each_mark_used_ids (clock : nat → string) (semantic_query : string)
    results (i0 : nat) self :
  used_chunk_ids
    (for_each
       (λ i (result : Result D),
          modify (mark_used (r_chunk_id result)
                    (Some (usage_metadata semantic_query result)) (clock i)))
       i0 results self).2
  = used_chunk_ids self ∪ list_to_set (result_ids results).
Proof.
  revert i0 self. induction results as [| r results IH]; intros i0 self.
  - cbn. by rewrite (right_id_L ∅ (∪)).
  - cbn [for_each]. unfold bind at 1, modify at 1. rewrite IH.
    unfold result_ids. rewrite fmap_cons, list_to_set_cons.
    cbn [mark_used used_chunk_ids].
    by rewrite (assoc_L (∪)), (comm_L (∪) {[r_chunk_id r]}).
Qed.

Lemma select_and_mark_used_results database clock semantic_query kw self :
  (select_and_mark_used database clock semantic_query kw self).1
  = (get_shakespeare_quote database semantic_query kw self).1.
Proof.
  unfold select_and_mark_used, bind at 1. rewrite get_shakespeare_quote_run.
  cbn [fst]. unfold bind, ret. by destruct (for_each _ _ _ _).
Qed.

Lemma select_and_mark_used_ids database clock semantic_query kw self :
  used_chunk_ids (select_and_mark_used database clock semantic_query kw self).2
  = used_chunk_ids self
    ∪ list_to_set
        (result_ids (select_and_mark_used database clock semantic_query kw self).1).
Proof.
  rewrite select_and_mark_used_results.
  unfold select_and_mark_used, bind at 1. rewrite get_shakespeare_quote_run.
  cbn [fst]. unfold bind, ret.
  match goal with
  | |- context [for_each ?body ?i ?l self] =>
      pose proof (for_each_mark_used_ids clock semantic_query l i self) as Hids;
      destruct (for_each body i l self) as [u self']
  end.
  exact Hids.
Qed.

(** The ids a call returns are not among the ids used before the call. *)
Lemma get_shakespeare_quote_fresh database semantic_query kw self (id : string) :
  id ∈ result_ids (get_shakespeare_quote database semantic_query kw self).1 →
  id ∉ used_chunk_ids self.
Proof.
  unfold result_ids. intros (r & -> & Hr)%list_elem_of_fmap.
  apply get_shakespeare_quote_keeps in Hr. unfold keeps in Hr.
  apply andb_prop in Hr as [Hr _]. apply andb_prop in Hr as [Hr _].
  apply negb_true_iff, bool_decide_eq_false in Hr.
  intros Hused. apply Hr. unfold exclusion_set. by apply elem_of_union_l.
Qed.

(** The ids one call returns are pairwise distinct when the ids of the
    candidates are. *)
Lemma get_shakespeare_quote_NoDup database semantic_query kw self :
  NoDup (result_ids (candidates database semantic_query kw)) →
  NoDup (result_ids (get_shakespeare_quote database semantic_query kw self).1).
Proof.
  intros Hnd. eapply sublist_NoDup; [exact Hnd |].
  apply fmap_sublist, get_shakespeare_quote_sublist.
Qed.

Lemma run_calls_cons (c : call D) (calls : list (call D)) self :
  run_calls (c :: calls) self
  = ((run_call c self).1 :: (run_calls calls (run_call c self).2).1,
     (run_calls calls (run_call c self).2).2).
Proof.
  cbn [run_calls]. unfold bind, ret.
  destruct (run_call c self) as [res self1]. cbn [fst snd].
  by destruct (run_calls calls self1) as [more self2].
Qed.

Lemma run_calls_no_repeat (calls : list (call D)) self :
  Forall (λ c, NoDup (result_ids (call_candidates c))) calls →
  NoDup (result_ids (concat (run_calls calls self).1))
  ∧ ∀ id, id ∈ result_ids (concat (run_calls calls self).1) → id ∉ used_chunk_ids self.
Proof.
  intros Hcalls. revert self.
  induction Hcalls as [| c calls Hc _ IH]; intros self.
  - cbn. split; [constructor | intros id Hid; by apply elem_of_nil in Hid].
  - rewrite run_calls_cons. cbn [fst].
    pose proof (select_and_mark_used_results (call_database c) (call_clock c)
                  (call_query c) (call_kwargs c) self) as Hres.
    pose proof (select_and_mark_used_ids (call_database c) (call_clock c)
                  (call_query c) (call_kwargs c) self) as Hids.
    fold (run_call c) in Hres, Hids.
    destruct (IH (run_call c self).2) as [IHnd IHfresh].
    unfold result_ids in *. rewrite concat_cons, fmap_app.
    assert (Hfresh : ∀ id, id ∈ r_chunk_id <$> (run_call c self).1 →
                           id ∉ used_chunk_ids self).
    { intros id Hid. rewrite Hres in Hid.
      by eapply get_shakespeare_quote_fresh. }
    split.
    + apply NoDup_app. split; [| split; [| exact IHnd]].
      * rewrite Hres. by apply get_shakespeare_quote_NoDup.
      * intros id Hid Hmore. apply (IHfresh id Hmore). rewrite Hids.
        by apply elem_of_union_r, elem_of_list_to_set.
    + intros id [Hid | Hid]%elem_of_app; [by apply Hfresh |].
      intros Hused. apply (IHfresh id Hid). rewrite Hids.
      by apply elem_of_union_l.
Qed.


End SelectorProperties.

(** ** The theorems above at concrete inputs *)



Lemma get_shakespeare_quote_cap_witness :
  (0 ≤ max_results (with_max_results 1 kwargs_default))%Z
  ∧ (Z.of_nat
       (length (get_shakespeare_quote sample_database "love"
                  (with_max_results 1 kwargs_default) fresh_session).1)
     ≤ max_results (with_max_results 1 kwargs_default))%Z.
Proof.
  assert (Hcap : (0 ≤ max_results (with_max_results 1 kwargs_default))%Z).
  { cbn. lia. }
  split; [exact Hcap |].
  exact (get_shakespeare_quote_cap sample_database "love"
           (with_max_results 1 kwargs_default) fresh_session Hcap).
Defined.

Lemma get_shakespeare_quote_order_witness :
  Transitive Qle
  ∧ Sorted Qle (r_distance <$> candidates sample_database "love" kwargs_default)
  ∧ (get_shakespeare_quote sample_database "love" kwargs_default fresh_session).1
      `sublist_of` candidates sample_database "love" kwargs_default
  ∧ Sorted Qle
      (r_distance
         <$> (get_shakespeare_quote sample_database "love" kwargs_default
                fresh_session).1).
Proof.
  assert (Htrans : Transitive Qle).
  { intros x y z. apply Qle_trans. }
  assert (Hsorted :
    Sorted Qle (r_distance <$> candidates sample_database "love" kwargs_default)).
  { cbn. repeat constructor. unfold Qle. cbn. lia. }
  split; [exact Htrans | split; [exact Hsorted |]].
  exact (get_shakespeare_quote_order Qle sample_database "love" kwargs_default
           fresh_session Htrans Hsorted).
Defined.

(* ================================================================== *)
(** * The post-filter on list-valued metadata *)
(* ================================================================== *)

Section PostFilter.

Context {D : Type}.

(** The test on one field succeeds exactly when a requested value is one of
    the comma-separated parts of the stored string. *)
Lemma field_matches_iff field requested (metadata : gmap string string) :
  field_matches field requested metadata = true
  ↔ ∃ v, v ∈ requested ∧ v ∈ Py.split "," (default "" (metadata !! field)).
Proof. unfold field_matches. apply any_in_true. Qed.

(** On a fragment that lacks the field, the split of the default [''] is
    [['']]: the test succeeds exactly when the empty string is requested. *)
Lemma field_matches_missing field requested (metadata : gmap string string) :
  metadata !! field = None →
  field_matches field requested metadata = true ↔ "" ∈ requested.
Proof.
  intros Hnone. rewrite field_matches_iff, Hnone. cbn. split.
  - intros (v & Hv & ->%list_elem_of_singleton). done.
  - intros Hin. exists "". split; [done | by apply list_elem_of_singleton].
Qed.

(** A fragment that lacks the field is rejected by a filter on that field
    whose requested values are all non-empty. *)
Lemma filter_passes_missing field requested (metadata : gmap string string) :
  metadata !! field = None →
  Py.truthy_list requested = true →
  "" ∉ default [] requested →
  filter_passes field requested metadata = false.
Proof.
  intros Hnone Htruthy Hempty. unfold filter_passes. rewrite Htruthy. cbn.
  destruct (field_matches field (default [] requested) metadata) eqn:Hm; [| done].
  apply (field_matches_missing _ _ _ Hnone) in Hm. done.
Qed.

(** What [_post_filter_results] keeps: a candidate outside the exclusion
    set that, for each requested non-empty filter, has one of the requested
    values among the comma-separated parts of its stored field. *)
Lemma post_filter_results_elem (results : list (Result D)) tone th exclude self
    (r : Result D) :
  r ∈ (_post_filter_results results tone th exclude self).1
  ↔ r ∈ results
    ∧ (r_chunk_id r ∉ exclusion_set self exclude)
    ∧ (Py.truthy_list tone = true →
       ∃ v, v ∈ default [] tone
            ∧ v ∈ Py.split "," (default "" (r_metadata r !! "emotional_tone")))
    ∧ (Py.truthy_list th = true →
       ∃ v, v ∈ default [] th
            ∧ v ∈ Py.split "," (default "" (r_metadata r !! "themes"))).
Proof.
  rewrite post_filter_results_run. cbn [fst]. rewrite list_elem_of_filter.
  unfold keeps, filter_passes.
  rewrite !andb_true_iff, negb_true_iff, bool_decide_eq_false, !orb_true_iff,
    !negb_true_iff, !field_matches_iff.
  split.
  - intros [[[Hex Htone] Hth] Hr]. split; [done |]. split; [done |]. split.
    + intros Ht. destruct Htone as [Hf | Hm]; [congruence | done].
    + intros Ht. destruct Hth as [Hf | Hm]; [congruence | done].
  - intros (Hr & Hex & Htone & Hth). split; [| done]. split; [split; [done |] |].
    + destruct (Py.truthy_list tone); [right; by apply Htone | by left].
    + destruct (Py.truthy_list th); [right; by apply Hth | by left].
Qed.

(** The result of [get_shakespeare_quote] does not depend on
    [character_type]: the argument reaches [_build_where_filters], which
    does not read it, and is not passed to [_post_filter_results]. *)
Lemma character_type_ignored (database : Database D) semantic_query kw ct self :
  get_shakespeare_quote database semantic_query (with_character_type ct kw) self
  = get_shakespeare_quote database semantic_query kw self.
Proof. reflexivity. Qed.

End PostFilter.

(** The two examples of the specification: a fragment stored with themes
    [love] and [fate] passes a request for [death] or [fate] and fails a
    request for [death]. *)
Lemma post_filter_or_semantics :
  (_post_filter_results [tagged_quote] None (Some ["death"; "fate"]) None
     fresh_session).1 = [tagged_quote]
  ∧ (_post_filter_results [tagged_quote] None (Some ["death"]) None
       fresh_session).1 = [].
Proof. split; vm_compute; reflexivity. Qed.

(** C4 at the input where the code departs from it: a request for the empty
    string on [themes] keeps a fragment whose metadata has no [themes]
    field, because [''.split(',')] is [['']]. *)
Theorem post_filter_keeps_fragment_without_field :
  r_metadata untagged_quote !! "themes" = None
  ∧ Py.truthy_list (Some [""]) = true
  ∧ ("chunk_1" ∉ exclusion_set fresh_session None)
  ∧ (_post_filter_results [untagged_quote] None (Some [""]) None fresh_session).1
    = [untagged_quote].
Proof.
  split; [by vm_compute |]. split; [done |]. split.
  - unfold exclusion_set, fresh_session. cbn. intros Hin.
    apply elem_of_union in Hin as [Hin | Hin]; by apply not_elem_of_empty in Hin.
  - vm_compute. reflexivity.
Qed.

(** C9 at an input where the code departs from it: with
    [character_type = ["royalty"]] requested, a quote whose stored
    [character_type] is [commoner] is returned. *)
Theorem character_type_not_enforced :
  r_metadata untagged_quote !! "character_type" = Some "commoner"
  ∧ ("commoner" ∉ ["royalty"])
  ∧ untagged_quote
    ∈ (get_shakespeare_quote sample_database "a king speaks"
         (with_character_type (Some ["royalty"]) kwargs_default) fresh_session).1.
Proof.
  split; [by vm_compute |]. split.
  - intros Hin%list_elem_of_singleton. discriminate Hin.
  - rewrite character_type_ignored.
    assert (Heq : (get_shakespeare_quote sample_database "a king speaks"
                     kwargs_default fresh_session).1
                  = [untagged_quote; tagged_quote]).
    { vm_compute. reflexivity. }
    rewrite Heq. apply elem_of_cons. by left.
Qed.

(* ================================================================== *)
(** * Properties of the ingestion *)
(* ================================================================== *)

Section Ingestion.

Variable repr : pyval → string.

Implicit Types (chunk : chunk) (chunks : list chunk) (acc : add_request).

Lemma add_request_app_empty_r acc : add_request_app acc (request_of repr []) = acc.
Proof. destruct acc. unfold add_request_app. cbn. by rewrite !app_nil_r. Qed.

Lemma add_request_app_assoc (r1 r2 r3 : add_request) :
  add_request_app (add_request_app r1 r2) r3
  = add_request_app r1 (add_request_app r2 r3).
Proof. unfold add_request_app. cbn. by rewrite !app_assoc. Qed.

(** One round of the loop: a chunk without a truthy [chunk_id] or
    [embedding] is skipped, any other chunk is appended. *)
Lemma add_chunks_step_accepted acc chunk :
  (accepted chunk = true → is_Some (chunk !! "chunk_text")) →
  add_chunks_step repr acc chunk
  = Ok (if accepted chunk then add_request_app acc (request_of repr [chunk]) else acc).
Proof.
  unfold add_chunks_step, accepted. intros Htext.
  destruct (truthy (default PNone (chunk !! "chunk_id"))); cbn; [| done].
  destruct (truthy (default PNone (chunk !! "embedding"))); cbn; [| done].
  destruct Htext as [text Htext]; [done |].
  unfold add_request_app, request_of. cbn. by rewrite Htext.
Qed.

Lemma add_chunks_loop_filter chunks acc :
  Forall (λ c : chunk, accepted c = true → is_Some (c !! "chunk_text")) chunks →
  add_chunks_loop repr acc chunks
  = Ok (add_request_app acc
          (request_of repr (filter (λ c, accepted c = true) chunks))).
Proof.
  intros Hchunks. revert acc.
  induction Hchunks as [| c chunks Hc _ IH]; intros acc.
  - cbn [add_chunks_loop]. by rewrite filter_nil, add_request_app_empty_r.
  - cbn [add_chunks_loop]. rewrite (add_chunks_step_accepted _ _ Hc), filter_cons.
    destruct (accepted c) eqn:Hacc.
    + rewrite decide_True by done. rewrite IH, add_request_app_assoc. done.
    + rewrite decide_False by done. apply IH.
Qed.

(** C2, as amended: [add_chunks] raises no [StoreWriteError]. It skips
    every chunk without a (truthy) [chunk_id] or [embedding] and submits, in
    one [collection.add] call, exactly the other chunks of the batch in their
    order; it makes no call when no chunk is left. The premise is that the
    chunks it does not skip have a [chunk_text]. *)
Theorem add_chunks_skips_incomplete chunks :
  Forall (λ c : chunk, accepted c = true → is_Some (c !! "chunk_text")) chunks →
  add_chunks repr chunks
  = Ok (match filter (λ c, accepted c = true) chunks with
        | [] => None
        | kept => Some (request_of repr kept)
        end).
Proof.
  intros Hchunks. unfold add_chunks.
  destruct chunks as [| c chunks]; [done |].
  rewrite (add_chunks_loop_filter _ _ Hchunks).
  by destruct (filter (λ c0, accepted c0 = true) (c :: chunks)).
Qed.

(** What [_prepare_metadata] stores for a list of strings. *)
Lemma prepare_metadata_list chunk (field : string) (l : list string) :
  field ≠ "embedding" → field ≠ "chunk_id" →
  chunk !! field = Some (PList (PStr <$> l)) →
  _prepare_metadata repr chunk !! field = Some (Py.join "," l).
Proof.
  intros Hemb Hid Hfield. unfold _prepare_metadata.
  rewrite lookup_omap, lookup_delete_ne, lookup_delete_ne, Hfield by done.
  cbn. do 2 f_equal. rewrite <- list_fmap_compose. by apply list_fmap_id.
Qed.

(** Storing a non-empty list of comma-free strings and splitting the stored
    string gives the list back: a requested value matches exactly when it
    is an element of the list. *)
Lemma stored_list_matches chunk (field : string) (l requested : list string) :
  field ≠ "embedding" → field ≠ "chunk_id" →
  chunk !! field = Some (PList (PStr <$> l)) →
  l ≠ [] → Forall (λ s, has_char "," s = false) l →
  field_matches field requested (_prepare_metadata repr chunk) = true
  ↔ ∃ v, v ∈ requested ∧ v ∈ l.
Proof.
  intros Hemb Hid Hfield Hne Hl.
  rewrite field_matches_iff, (prepare_metadata_list _ _ _ Hemb Hid Hfield). cbn.
  by rewrite split_join.
Qed.

(** An empty list is stored as the empty string, which splits into [['']]:
    the only value that matches is the empty string. *)
Lemma stored_empty_list_matches chunk (field : string) (requested : list string) :
  field ≠ "embedding" → field ≠ "chunk_id" →
  chunk !! field = Some (PList []) →
  field_matches field requested (_prepare_metadata repr chunk) = true
  ↔ "" ∈ requested.
Proof.
  intros Hemb Hid Hfield.
  rewrite field_matches_iff, (prepare_metadata_list _ _ [] Hemb Hid Hfield). cbn.
  split.
  - by intros (v & Hv & ->%list_elem_of_singleton).
  - intros Hin. exists "". split; [done | by apply list_elem_of_singleton].
Qed.

End Ingestion.

Lemma add_chunks_skips_incomplete_witness :
  Forall (λ c : chunk, accepted c = true → is_Some (c !! "chunk_text"))
    [good_chunk; chunk_without_embedding]
  ∧ add_chunks repr_none [good_chunk; chunk_without_embedding]
    = Ok (match filter (λ c, accepted c = true) [good_chunk; chunk_without_embedding] with
          | [] => None
          | kept => Some (request_of repr_none kept)
          end).
Proof.
  assert (Hchunks :
    Forall (λ c : chunk, accepted c = true → is_Some (c !! "chunk_text"))
      [good_chunk; chunk_without_embedding]).
  { repeat constructor; intros _; vm_compute; eauto. }
  split; [exact Hchunks |].
  exact (add_chunks_skips_incomplete repr_none _ Hchunks).
Defined.

(** C2, as stated, fails: a batch with one complete chunk and one chunk
    without an embedding raises nothing, and the complete chunk alone is
    submitted to the store. *)
Lemma add_chunks_inserts_proper_subset :
  chunk_without_embedding !! "embedding" = None
  ∧ add_chunks repr_none [good_chunk; chunk_without_embedding]
    = Ok (Some (request_of repr_none [good_chunk]))
  ∧ ids (request_of repr_none [good_chunk]) = [PStr "test_1"].
Proof. split; [| split]; vm_compute; reflexivity. Qed.

(** C10 at the input where the code departs from it: a chunk whose list of
    themes is empty is stored with [themes = ''], and the post-filter then
    matches the requested value [''], which is no element of the empty
    list. *)
Theorem empty_list_matches_empty_string :
  chunk_without_themes !! "themes" = Some (PList [])
  ∧ _prepare_metadata repr_none chunk_without_themes !! "themes" = Some ""
  ∧ field_matches "themes" [""] (_prepare_metadata repr_none chunk_without_themes)
    = true
  ∧ "" ∉ ([] : list string).
Proof.
  split; [by vm_compute |]. split; [by vm_compute |]. split; [by vm_compute |].
  apply not_elem_of_nil.
Qed.

(* ================================================================== *)
(** * Further properties of the session tracker *)
(* ================================================================== *)

Section SessionFurther.

Implicit Types (self other : SessionManager) (fs : filesystem).

Lemma size_list_to_set_le (l : list string) :
  (size (list_to_set l : gset string) ≤ length l)%nat.
Proof.
  induction l as [| x l IH]; cbn [length].
  - by rewrite list_to_set_nil, size_empty.
  - rewrite list_to_set_cons.
    rewrite size_union_alt, size_singleton.
    assert (size (list_to_set l ∖ {[x]} : gset string)
            ≤ size (list_to_set l : gset string))%nat.
    { apply subseteq_size, subseteq_difference_l. done. }
    lia.
Qed.

(** X1: In a consistent session [get_statistics] never reports more distinct
    chunks than usage events, the two counts are zero together, and the
    two timestamps are present exactly when there was a usage event. *)
Theorem get_statistics_counts self :
  session_consistent self →
  (total_chunks_used (get_statistics self) ≤ usage_events (get_statistics self))%nat
  ∧ (total_chunks_used (get_statistics self) = 0
     ↔ usage_events (get_statistics self) = 0)
  ∧ (start_time (get_statistics self) = None
     ↔ usage_events (get_statistics self) = 0)
  ∧ (last_usage (get_statistics self) = None
     ↔ usage_events (get_statistics self) = 0).
Proof.
  unfold session_consistent, get_statistics, history_ids. cbn. intros ->.
  split; [rewrite <- (length_fmap u_chunk_id); apply size_list_to_set_le |].
  destruct (usage_history self) as [| r h] eqn:Hh.
  - cbn. rewrite size_empty. done.
  - split; [| split].
    + split; [| done]. intros Hsize. apply size_empty_inv in Hsize.
      exfalso. apply (not_elem_of_empty (C := gset string) (u_chunk_id r)).
      apply Hsize. rewrite fmap_cons, list_to_set_cons.
      apply elem_of_union_l. by apply elem_of_singleton.
    + by cbn.
    + cbn [length]. split; [| done].
      rewrite fmap_None, last_None. done.
Qed.

Lemma get_statistics_counts_witness :
  session_consistent other_tracker
  ∧ (total_chunks_used (get_statistics other_tracker)
     ≤ usage_events (get_statistics other_tracker))%nat.
Proof.
  assert (Hc : session_consistent other_tracker).
  { apply mark_used_consistent, session_init_consistent. }
  split; [exact Hc |].
  exact (proj1 (get_statistics_counts other_tracker Hc)).
Defined.

(** X2: [merge_session] does not deduplicate the history: merging the same
    session a second time leaves [used_chunk_ids] as it is and appends the
    other history once more. *)
Theorem merge_session_twice other self :
  used_chunk_ids (merge_session other (merge_session other self))
  = used_chunk_ids (merge_session other self)
  ∧ usage_history (merge_session other (merge_session other self))
    = usage_history (merge_session other self) ++ usage_history other.
Proof.
  unfold merge_session. cbn [used_chunk_ids usage_history]. split; [| done].
  by rewrite <- (assoc_L (∪)), (idemp_L (∪)).
Qed.

(** After a merge an id is used exactly when it was used in one of the two
    sessions. *)
Theorem merge_session_is_used other self (chunk_id : string) :
  is_used chunk_id (merge_session other self)
  = is_used chunk_id self || is_used chunk_id other.
Proof.
  unfold is_used, merge_session. cbn [used_chunk_ids].
  apply eq_true_iff_eq. rewrite orb_true_iff, !bool_decide_eq_true.
  apply elem_of_union.
Qed.

(** Operations other than [save_session] leave the disk as it is. *)
Lemma session_run_keeps_disk ops self fs :
  Forall op_writes_no_file ops →
  (session_run ops (self, fs)).2 = fs.
Proof.
  unfold session_run. intros Hops. revert self fs.
  induction Hops as [| o ops Ho _ IH]; intros self fs; [done |].
  cbn [foldl].
  destruct o as [chunk_id metadata now | | other | output_path | input_path];
    cbn [session_step].
  - apply IH.
  - apply IH.
  - apply IH.
  - done.
  - destruct (load_session input_path self fs); apply IH.
Qed.



End SessionFurther.

(* ================================================================== *)
(** * Further properties of the quote selector *)
(* ================================================================== *)

Section SelectorFurther.

Context {D : Type}.

Implicit Types (self : SessionManager) (results : list (Result D))
  (database : Database D) (kw : kwargs).

(** X4: With a cap [N ≥ 0] the result is exactly the first [N] candidates that
    pass the post-filter, in the order of the index: all of them when fewer
    than [N] pass (no error, no second query), so its length is the smaller
    of [N] and their number. *)
Theorem get_shakespeare_quote_first_kept database semantic_query kw self :
  (0 ≤ max_results kw)%Z →
  (get_shakespeare_quote database semantic_query kw self).1
  = take (Z.to_nat (max_results kw)) (kept_candidates database semantic_query kw self)
  ∧ length (get_shakespeare_quote database semantic_query kw self).1
    = Z.to_nat (max_results kw)
      `min` length (kept_candidates database semantic_query kw self).
Proof.
  intros Hcap. rewrite get_shakespeare_quote_run. cbn [fst].
  fold (kept_candidates database semantic_query kw self).
  unfold Py.slice_to. destruct (Z.leb_spec 0 (max_results kw)) as [_ | Hneg]; [| lia].
  split; [done | apply length_take].
Qed.

(** X6: No returned quote has an id that the session has used or that the
    caller listed in [exclude_chunk_ids]. *)
Theorem get_shakespeare_quote_excludes database semantic_query kw self (r : Result D) :
  r ∈ (get_shakespeare_quote database semantic_query kw self).1 →
  is_used (r_chunk_id r) self = false
  ∧ r_chunk_id r ∉ default [] (exclude_chunk_ids kw).
Proof.
  intros Hr. apply get_shakespeare_quote_keeps in Hr. unfold keeps in Hr.
  apply andb_prop in Hr as [Hr _]. apply andb_prop in Hr as [Hr _].
  apply negb_true_iff, bool_decide_eq_false in Hr. unfold exclusion_set in Hr.
  split.
  - unfold is_used. apply bool_decide_eq_false. intros Hin. apply Hr.
    by apply elem_of_union_l.
  - intros Hin. apply Hr. by apply elem_of_union_r, elem_of_list_to_set.
Qed.

(** X7: An empty list given for [emotional_tone], for [themes] or for
    [exclude_chunk_ids] behaves as an absent one, whatever the other two
    are: the call returns the same results and leaves the same session. *)
Theorem get_shakespeare_quote_empty_filters database semantic_query kw self
    (tone th exclude : option (list string)) :
  get_shakespeare_quote database semantic_query
    (with_post_filters (Some []) th exclude kw) self
  = get_shakespeare_quote database semantic_query
      (with_post_filters None th exclude kw) self
  ∧ get_shakespeare_quote database semantic_query
      (with_post_filters tone (Some []) exclude kw) self
    = get_shakespeare_quote database semantic_query
        (with_post_filters tone None exclude kw) self
  ∧ get_shakespeare_quote database semantic_query
      (with_post_filters tone th (Some []) kw) self
    = get_shakespeare_quote database semantic_query
        (with_post_filters tone th None kw) self.
Proof.
  rewrite !get_shakespeare_quote_run. by split; [| split].
Qed.

(** The results depend on the session only through [used_chunk_ids]. *)
Lemma get_shakespeare_quote_used_only database semantic_query kw self1 self2 :
  used_chunk_ids self1 = used_chunk_ids self2 →
  (get_shakespeare_quote database semantic_query kw self1).1
  = (get_shakespeare_quote database semantic_query kw self2).1.
Proof.
  intros Hused. rewrite !get_shakespeare_quote_run. cbn [fst].
  unfold exclusion_set. by rewrite Hused.
Qed.

(** X8: Exclusion is scoped to the session: after [reset], the call that was
    just made and marked returns what it returned the first time on a
    session without used ids. *)
Theorem reset_makes_quotes_eligible database clock1 clock2 semantic_query kw self :
  used_chunk_ids self = ∅ →
  (select_and_mark_used database clock2 semantic_query kw
     (reset (select_and_mark_used database clock1 semantic_query kw self).2)).1
  = (select_and_mark_used database clock1 semantic_query kw self).1.
Proof.
  intros Hused. rewrite !select_and_mark_used_results.
  apply get_shakespeare_quote_used_only. by rewrite Hused.
Qed.

(** The marking loop appends one history entry per quote, in order. *)
Lemma for_each_mark_used_history (clock : nat → string) (semantic_query : string)
    results (i0 : nat) self :
  usage_history
    (for_each
       (λ i (result : Result D),
          modify (mark_used (r_chunk_id result)
                    (Some (usage_metadata semantic_query result)) (clock i)))
       i0 results self).2
  = usage_history self
    ++ imap (λ i, usage_record_of clock semantic_query (i0 + i)) results.
Proof.
  revert i0 self. induction results as [| r results IH]; intros i0 self.
  - cbn. by rewrite app_nil_r.
  - cbn [for_each]. unfold bind at 1, modify at 1. rewrite IH.
    cbn [mark_used usage_history default]. rewrite <- app_assoc. f_equal.
    cbn [imap app]. unfold usage_record_of at 2. rewrite Nat.add_0_r. f_equal.
    apply imap_ext. intros i x _. cbn. f_equal. lia.
Qed.

(** X9: [select_and_mark_used] appends to the history exactly one entry per
    returned quote, in the order returned, with that quote's id, the query
    and the quote's text; earlier entries are kept. *)
Theorem select_and_mark_used_history database clock semantic_query kw self :
  usage_history (select_and_mark_used database clock semantic_query kw self).2
  = usage_history self
    ++ imap (usage_record_of clock semantic_query)
         (select_and_mark_used database clock semantic_query kw self).1.
Proof.
  rewrite select_and_mark_used_results.
  unfold select_and_mark_used, bind at 1. rewrite get_shakespeare_quote_run.
  cbn [fst]. unfold bind, ret.
  match goal with
  | |- context [for_each ?body ?i ?l self] =>
      pose proof (for_each_mark_used_history clock semantic_query l i self) as Hh;
      destruct (for_each body i l self) as [u self']
  end.
  exact Hh.
Qed.

(** The ids of the history after the marking loop. *)
Lemma for_each_mark_used_history_ids (clock : nat → string) (semantic_query : string)
    results (i0 : nat) self :
  history_ids
    (usage_history
       (for_each
          (λ i (result : Result D),
             modify (mark_used (r_chunk_id result)
                       (Some (usage_metadata semantic_query result)) (clock i)))
          i0 results self).2)
  = history_ids (usage_history self) ∪ list_to_set (result_ids results).
Proof.
  rewrite for_each_mark_used_history, history_ids_app. f_equal.
  unfold history_ids, result_ids. f_equal. rewrite fmap_imap. unfold compose.
  generalize (λ i : nat, clock (i0 + i)%nat). clear.
  induction results as [| r results IH]; intros time; [done |].
  cbn [imap fmap list_fmap]. f_equal. apply (IH (time ∘ S)).
Qed.

(** X10: [select_and_mark_used] keeps the tracker consistent. *)
Theorem select_and_mark_used_consistent database clock semantic_query kw self :
  session_consistent self →
  session_consistent (select_and_mark_used database clock semantic_query kw self).2.
Proof.
  unfold session_consistent. intros Hc.
  rewrite select_and_mark_used_ids, Hc, select_and_mark_used_results.
  unfold select_and_mark_used, bind at 1. rewrite get_shakespeare_quote_run.
  cbn [fst]. unfold bind, ret.
  match goal with
  | |- context [for_each ?body ?i ?l self] =>
      pose proof (for_each_mark_used_history_ids clock semantic_query l i self)
        as Hids;
      destruct (for_each body i l self) as [u self']
  end.
  cbn [snd] in Hids |- *. by rewrite Hids.
Qed.

End SelectorFurther.

Lemma get_shakespeare_quote_first_kept_witness :
  (0 ≤ max_results (with_max_results 1 kwargs_default))%Z
  ∧ length (get_shakespeare_quote sample_database "love"
              (with_max_results 1 kwargs_default) fresh_session).1
    = Z.to_nat (max_results (with_max_results 1 kwargs_default))
      `min` length (kept_candidates sample_database "love"
                      (with_max_results 1 kwargs_default) fresh_session).
Proof.
  assert (Hcap : (0 ≤ max_results (with_max_results 1 kwargs_default))%Z).
  { cbn. lia. }
  split; [exact Hcap |].
  exact (proj2 (get_shakespeare_quote_first_kept sample_database "love"
                  (with_max_results 1 kwargs_default) fresh_session Hcap)).
Defined.

Lemma get_shakespeare_quote_excludes_witness :
  is_used "chunk_2" used_session = true
  ∧ tagged_quote ∈ candidates three_quote_database "love" kwargs_excluding
  ∧ third_quote ∈ candidates three_quote_database "love" kwargs_excluding
  ∧ (get_shakespeare_quote three_quote_database "love" kwargs_excluding
       used_session).1 = [untagged_quote]
  ∧ untagged_quote
    ∈ (get_shakespeare_quote three_quote_database "love" kwargs_excluding
         used_session).1
  ∧ is_used (r_chunk_id untagged_quote) used_session = false
  ∧ r_chunk_id untagged_quote ∉ default [] (exclude_chunk_ids kwargs_excluding).
Proof.
  assert (Heq : (get_shakespeare_quote three_quote_database "love" kwargs_excluding
                   used_session).1 = [untagged_quote]).
  { vm_compute. reflexivity. }
  assert (Hr : untagged_quote
               ∈ (get_shakespeare_quote three_quote_database "love"
                    kwargs_excluding used_session).1).
  { rewrite Heq. by apply list_elem_of_singleton. }
  split; [by vm_compute |].
  split; [apply elem_of_cons; right; apply elem_of_cons; by left |].
  split; [do 2 (apply elem_of_cons; right); apply elem_of_cons; by left |].
  split; [exact Heq |]. split; [exact Hr |].
  exact (get_shakespeare_quote_excludes three_quote_database "love"
           kwargs_excluding used_session untagged_quote Hr).
Defined.

Lemma reset_makes_quotes_eligible_witness :
  used_chunk_ids fresh_session = ∅
  ∧ (select_and_mark_used sample_database sample_clock "love" kwargs_default
       (reset (select_and_mark_used sample_database sample_clock "love"
                 kwargs_default fresh_session).2)).1
    = (select_and_mark_used sample_database sample_clock "love" kwargs_default
         fresh_session).1.
Proof.
  assert (Hused : used_chunk_ids fresh_session = ∅) by reflexivity.
  split; [exact Hused |].
  exact (reset_makes_quotes_eligible sample_database sample_clock sample_clock
           "love" kwargs_default fresh_session Hused).
Defined.

Lemma select_and_mark_used_consistent_witness :
  session_consistent fresh_session
  ∧ session_consistent
      (select_and_mark_used sample_database sample_clock "love" kwargs_default
         fresh_session).2.
Proof.
  assert (Hc : session_consistent fresh_session) by reflexivity.
  split; [exact Hc |].
  exact (select_and_mark_used_consistent sample_database sample_clock "love"
           kwargs_default fresh_session Hc).
Defined.

(* ================================================================== *)
(** * The store-side filters *)
(* ================================================================== *)

Section WhereFilters.

Implicit Types (w : gmap string string) (value : option string).

Lemma set_if_truthy_lookup (key key' : string) value w :
  set_if_truthy key value w !! key'
  = if decide (key = key')
    then match where_value value with
         | Some v => Some v
         | None => w !! key'
         end
    else w !! key'.
Proof.
  unfold set_if_truthy, where_value.
  destruct value as [v |]; cbn; [| by destruct (decide (key = key'))].
  destruct (Py.truthy_str v); cbn.
  - destruct (decide (key = key')) as [-> | Hne].
    + by rewrite lookup_insert_eq.
    + by rewrite lookup_insert_ne.
  - by destruct (decide (key = key')).
Qed.

(** The dictionary under construction in [_build_where_filters], before the
    final [where if where else None]. *)
Lemma where_dict_lookup (c k f p : option string) (key : string) :
  set_if_truthy "play_title" p
    (set_if_truthy "formality_level" f
       (set_if_truthy "chunk_type" k (set_if_truthy "context" c ∅))) !! key
  = if decide (key = "context") then where_value c
    else if decide (key = "chunk_type") then where_value k
    else if decide (key = "formality_level") then where_value f
    else if decide (key = "play_title") then where_value p
    else None.
Proof.
  rewrite !set_if_truthy_lookup, lookup_empty.
  destruct (decide (key = "context")) as [-> | Hc].
  { cbn. by destruct (where_value c). }
  destruct (decide (key = "chunk_type")) as [-> | Hk].
  { cbn. by destruct (where_value k). }
  destruct (decide (key = "formality_level")) as [-> | Hf].
  { cbn. by destruct (where_value f). }
  destruct (decide (key = "play_title")) as [-> | Hp].
  { cbn. by destruct (where_value p). }
  rewrite !decide_False by done. done.
Qed.

(** X11: [_build_where_filters] returns [None] exactly when none of the four
    scalar filters is given as a non-empty string; otherwise the dictionary
    holds every such filter under its key ([context_type] under
    ['context']) and nothing else: no empty value, and no entry for
    [character_type], whatever was passed for it. *)
Theorem build_where_filters_spec (ct : option (list string)) (c k f p : option string) :
  (_build_where_filters ct c k f p = None
   ↔ where_value c = None ∧ where_value k = None
     ∧ where_value f = None ∧ where_value p = None)
  ∧ ∀ w, _build_where_filters ct c k f p = Some w →
      ∀ key, w !! key
             = if decide (key = "context") then where_value c
               else if decide (key = "chunk_type") then where_value k
               else if decide (key = "formality_level") then where_value f
               else if decide (key = "play_title") then where_value p
               else None.
Proof.
  unfold _build_where_filters, none_if_empty. cbv zeta.
  set (m := set_if_truthy "play_title" p _).
  assert (Hm : ∀ key, m !! key
             = if decide (key = "context") then where_value c
               else if decide (key = "chunk_type") then where_value k
               else if decide (key = "formality_level") then where_value f
               else if decide (key = "play_title") then where_value p
               else None) by apply where_dict_lookup.
  split.
  - destruct (decide (m = ∅)) as [Hempty | Hne].
    + split; [intros _ | done].
      pose proof (Hm "context") as H1. pose proof (Hm "chunk_type") as H2.
      pose proof (Hm "formality_level") as H3. pose proof (Hm "play_title") as H4.
      rewrite Hempty, lookup_empty in H1, H2, H3, H4. cbn in H1, H2, H3, H4.
      done.
    + split; [done |]. intros (H1 & H2 & H3 & H4). exfalso. apply Hne.
      apply map_eq. intros key. rewrite Hm, lookup_empty, H1, H2, H3, H4.
      by repeat case_decide.
  - intros w Hsome. destruct (decide (m = ∅)); [done |].
    injection Hsome as <-. exact Hm.
Qed.

(** The second test [where_filters if where_filters else None] in
    [get_shakespeare_quote] changes nothing. *)
Lemma where_or_none_build (ct : option (list string)) (c k f p : option string) :
  where_or_none (_build_where_filters ct c k f p) = _build_where_filters ct c k f p.
Proof.
  unfold where_or_none, _build_where_filters, none_if_empty. cbv zeta.
  destruct (decide (_ = ∅)) as [He | Hne]; [done |].
  by rewrite decide_False.
Qed.

End WhereFilters.

(* ================================================================== *)
(** * Further properties of the ingestion *)
(* ================================================================== *)

Section IngestionFurther.

Variable repr : pyval → string.

Implicit Types (chunk : chunk) (chunks : list chunk) (acc req : add_request).

Lemma accepted_filter_Forall chunks :
  Forall (λ c : chunk, accepted c = true) (filter (λ c, accepted c = true) chunks).
Proof. apply Forall_forall. intros c Hc. by apply list_elem_of_filter in Hc as [? _]. Qed.

Lemma accepted_filter_nil chunks :
  filter (λ c : chunk, accepted c = true) chunks = []
  ↔ Forall (λ c : chunk, accepted c = false) chunks.
Proof.
  induction chunks as [| c chunks IH]; [by rewrite filter_nil |].
  rewrite filter_cons, Forall_cons. destruct (accepted c) eqn:Hacc.
  - rewrite decide_True by done. split; [done | by intros [? _]].
  - rewrite decide_False by done. rewrite IH. split; [done | by intros [_ ?]].
Qed.

(** One round of the loop either raises [KeyError] on ['chunk_text'] or
    continues with the chunk skipped or appended. *)
Lemma add_chunks_step_cases acc chunk :
  (accepted chunk = true ∧ chunk !! "chunk_text" = None
   ∧ add_chunks_step repr acc chunk = Raise (KeyError "chunk_text"))
  ∨ ((accepted chunk = true → is_Some (chunk !! "chunk_text"))
     ∧ add_chunks_step repr acc chunk
       = Ok (if accepted chunk
             then add_request_app acc (request_of repr [chunk]) else acc)).
Proof.
  destruct (accepted chunk) eqn:Hacc.
  - destruct (chunk !! "chunk_text") as [text |] eqn:Htext.
    + right. assert (Hok : accepted chunk = true → is_Some (chunk !! "chunk_text")).
      { rewrite Htext. eauto. }
      split; [intros _; eauto |].
      by rewrite (add_chunks_step_accepted repr acc chunk Hok), Hacc.
    + left. split; [done |]. split; [done |].
      unfold accepted in Hacc. apply andb_prop in Hacc as [Hid Hemb].
      unfold add_chunks_step. rewrite Hid, Hemb, Htext. done.
  - right. assert (Hok : accepted chunk = true → is_Some (chunk !! "chunk_text")).
    { by rewrite Hacc. }
    split; [done |].
    by rewrite (add_chunks_step_accepted repr acc chunk Hok), Hacc.
Qed.

(** When the loop ends normally, it has appended exactly the chunks that
    are not skipped, in order. *)
Lemma add_chunks_loop_ok chunks acc req :
  add_chunks_loop repr acc chunks = Ok req →
  req = add_request_app acc
          (request_of repr (filter (λ c, accepted c = true) chunks)).
Proof.
  revert acc. induction chunks as [| c chunks IH]; intros acc.
  - cbn [add_chunks_loop]. intros [= <-].
    by rewrite filter_nil, (add_request_app_empty_r repr).
  - cbn [add_chunks_loop].
    destruct (add_chunks_step_cases acc c) as [(_ & _ & ->) | (_ & ->)]; [done |].
    intros Hloop. apply IH in Hloop. rewrite Hloop, filter_cons.
    destruct (accepted c).
    + rewrite decide_True by done. by rewrite add_request_app_assoc.
    + by rewrite decide_False by done.
Qed.

Lemma add_chunks_loop_raise chunks acc :
  Exists (λ c : chunk, accepted c = true ∧ c !! "chunk_text" = None) chunks →
  add_chunks_loop repr acc chunks = Raise (KeyError "chunk_text").
Proof.
  intros Hbad. revert acc.
  induction chunks as [| c chunks IH]; intros acc; [by apply Exists_nil in Hbad |].
  cbn [add_chunks_loop].
  destruct (add_chunks_step_cases acc c) as [(_ & _ & ->) | (Hok & ->)]; [done |].
  apply Exists_cons in Hbad as [[Hacc Htext] | Hbad]; [| by apply IH].
  specialize (Hok Hacc). rewrite Htext in Hok. by destruct Hok.
Qed.

(** X12: A chunk that is not skipped and has no ['chunk_text'] makes the whole
    call raise [KeyError] before [collection.add] is reached: nothing of
    the batch is submitted, the complete chunks before it included. *)
Theorem add_chunks_missing_text chunks :
  Exists (λ c : chunk, accepted c = true ∧ c !! "chunk_text" = None) chunks →
  add_chunks repr chunks = Raise (KeyError "chunk_text").
Proof.
  intros Hbad. unfold add_chunks.
  destruct chunks as [| c chunks]; [by apply Exists_nil in Hbad |].
  by rewrite add_chunks_loop_raise.
Qed.

Lemma add_chunks_ok chunks (result : option add_request) :
  add_chunks repr chunks = Ok result →
  result = match filter (λ c, accepted c = true) chunks with
           | [] => None
           | kept => Some (request_of repr kept)
           end.
Proof.
  unfold add_chunks. destruct chunks as [| c chunks]; [by intros [= <-] |].
  destruct (add_chunks_loop repr add_request_empty (c :: chunks)) as [req |] eqn:Hloop;
    [| done].
  apply add_chunks_loop_ok in Hloop. subst req.
  destruct (filter (λ c0, accepted c0 = true) (c :: chunks)); by intros [= <-].
Qed.

(** X13: Whenever [add_chunks] calls [collection.add], the four lists it passes
    are parallel: each has one entry per chunk that was not skipped, at
    least one, and every id and every embedding passed is truthy. *)
Theorem add_chunks_request_parallel chunks req :
  add_chunks repr chunks = Ok (Some req) →
  (0 < length (ids req))%nat
  ∧ length (ids req) = length (filter (λ c, accepted c = true) chunks)
  ∧ length (embeddings req) = length (ids req)
  ∧ length (documents req) = length (ids req)
  ∧ length (metadatas req) = length (ids req)
  ∧ Forall (λ v, truthy v = true) (ids req)
  ∧ Forall (λ v, truthy v = true) (embeddings req).
Proof.
  intros Hadd. apply add_chunks_ok in Hadd.
  pose proof (accepted_filter_Forall chunks) as Hkept.
  destruct (filter (λ c, accepted c = true) chunks) as [| c kept]; [done |].
  injection Hadd as ->. unfold request_of. cbn [ids embeddings documents metadatas].
  rewrite !length_fmap. repeat split; try done.
  - cbn. lia.
  - apply Forall_fmap. eapply Forall_impl; [exact Hkept |].
    intros c0 Hacc. unfold accepted in Hacc. by apply andb_prop in Hacc as [? _].
  - apply Forall_fmap. eapply Forall_impl; [exact Hkept |].
    intros c0 Hacc. unfold accepted in Hacc. by apply andb_prop in Hacc as [_ ?].
Qed.

(** X14: [add_chunks] returns without calling [collection.add] exactly when
    every chunk of the batch is skipped, the empty batch included. *)
Theorem add_chunks_no_call chunks :
  add_chunks repr chunks = Ok None
  ↔ Forall (λ c : chunk, accepted c = false) chunks.
Proof.
  rewrite <- accepted_filter_nil. split.
  - intros Hadd. apply add_chunks_ok in Hadd.
    by destruct (filter (λ c, accepted c = true) chunks).
  - intros Hf. pose proof (proj1 (accepted_filter_nil chunks) Hf) as Hskip.
    unfold add_chunks. destruct chunks as [| c chunks]; [done |].
    rewrite (add_chunks_loop_filter repr), Hf; [done |].
    eapply Forall_impl; [exact Hskip |]. intros c0 Hc0 Hacc. congruence.
Qed.

(** X15: What [_prepare_metadata] keeps of a chunk: never the keys
    ['embedding'] and ['chunk_id'], no key whose value is [None], and every
    other key of the chunk; a string value is stored as it is. *)
Theorem prepare_metadata_keys chunk (key : string) :
  (is_Some (_prepare_metadata repr chunk !! key)
   ↔ key ≠ "embedding" ∧ key ≠ "chunk_id"
     ∧ ∃ value, chunk !! key = Some value ∧ value ≠ PNone)
  ∧ ∀ s, key ≠ "embedding" → key ≠ "chunk_id" → chunk !! key = Some (PStr s) →
         _prepare_metadata repr chunk !! key = Some s.
Proof.
  unfold _prepare_metadata. rewrite lookup_omap. split.
  - destruct (decide (key = "chunk_id")) as [-> | Hid].
    { rewrite lookup_delete_eq. cbn. split; [by intros [? ?] | by intros (_ & ? & _)]. }
    rewrite lookup_delete_ne by done.
    destruct (decide (key = "embedding")) as [-> | Hemb].
    { rewrite lookup_delete_eq. cbn. split; [by intros [? ?] | by intros (? & _)]. }
    rewrite lookup_delete_ne by done.
    destruct (chunk !! key) as [value |]; cbn.
    + split.
      * intros Hsome. split; [done |]. split; [done |]. exists value.
        split; [done |]. intros ->. cbn in Hsome. by destruct Hsome.
      * intros (_ & _ & v & [= <-] & Hv). destruct value; cbn; eauto. done.
    + split; [by intros [? ?] | by intros (_ & _ & ? & ? & _)].
  - intros s Hemb Hid Hs. by rewrite !lookup_delete_ne, Hs by done.
Qed.

End IngestionFurther.

Lemma add_chunks_missing_text_witness :
  Exists (λ c : chunk, accepted c = true ∧ c !! "chunk_text" = None)
    [good_chunk; delete "chunk_text" good_chunk]
  ∧ add_chunks repr_none [good_chunk; delete "chunk_text" good_chunk]
    = Raise (KeyError "chunk_text").
Proof.
  assert (Hbad : Exists (λ c : chunk, accepted c = true ∧ c !! "chunk_text" = None)
                   [good_chunk; delete "chunk_text" good_chunk]).
  { apply Exists_cons_tl, Exists_cons_hd. split; vm_compute; reflexivity. }
  split; [exact Hbad |].
  exact (add_chunks_missing_text repr_none _ Hbad).
Defined.

Lemma add_chunks_request_parallel_witness :
  add_chunks repr_none [good_chunk; chunk_without_embedding]
  = Ok (Some (request_of repr_none [good_chunk]))
  ∧ length (embeddings (request_of repr_none [good_chunk]))
    = length (ids (request_of repr_none [good_chunk])).
Proof.
  assert (Hadd : add_chunks repr_none [good_chunk; chunk_without_embedding]
                 = Ok (Some (request_of repr_none [good_chunk]))).
  { vm_compute. reflexivity. }
  split; [exact Hadd |].
  exact (proj1 (proj2 (proj2 (add_chunks_request_parallel repr_none _ _ Hadd)))).
Defined.

(* ================================================================== *)
(** * Stored lists and extracted tags *)
(* ================================================================== *)

Section StoredLists.

Lemma split_length_pos sep s : (0 < length (Py.split sep s))%nat.
Proof.
  pose proof (split_not_nil sep s). destruct (Py.split sep s); [done | cbn; lia].
Qed.

(** A string with a separator splits into at least two parts. *)
Lemma split_length_sep sep s :
  has_char sep s = true → (2 ≤ length (Py.split sep s))%nat.
Proof.
  induction s as [| c rest IH]; cbn -[Ascii.eqb]; [done |].
  destruct (Ascii.eqb c sep) eqn:Hc; cbn -[Ascii.eqb].
  - intros _. pose proof (split_length_pos sep rest). lia.
  - intros Hrest. specialize (IH Hrest).
    destruct (Py.split sep rest) as [| part parts]; cbn in IH |- *; lia.
Qed.

(** Splitting [a + sep + b]: the last part of [a] stays separate from the
    first part of [b]. *)
Lemma split_app_sep_any sep a b :
  Py.split sep (a +:+ String sep b) = Py.split sep a ++ Py.split sep b.
Proof.
  induction a as [| c rest IH].
  - change ("" +:+ String sep b) with (String sep b).
    cbn -[Ascii.eqb]. by rewrite Ascii.eqb_refl.
  - change (String c rest +:+ String sep b) with (String c (rest +:+ String sep b)).
    cbn -[Ascii.eqb]. rewrite IH. destruct (Ascii.eqb c sep); [done |].
    pose proof (split_not_nil sep rest). by destruct (Py.split sep rest).
Qed.

(** Splitting a joined non-empty list gives the parts of every element. *)
Lemma split_join_concat (l : list string) :
  l ≠ [] → Py.split "," (Py.join "," l) = concat (Py.split "," <$> l).
Proof.
  intros Hne. induction l as [| x l IH]; [done |].
  destruct l as [| y l].
  - cbn. by rewrite app_nil_r.
  - change (Py.join "," (x :: y :: l)) with (x +:+ String "," (Py.join "," (y :: l))).
    rewrite split_app_sep_any, IH by done. done.
Qed.

Lemma concat_split_length (l : list string) :
  (length l ≤ length (concat (Py.split "," <$> l)))%nat
  ∧ (Exists (λ s, has_char "," s = true) l →
     (length l < length (concat (Py.split "," <$> l)))%nat).
Proof.
  induction l as [| x l [IHle IHlt]]; [split; [done | by intros ?%Exists_nil] |].
  rewrite fmap_cons, concat_cons, length_app. cbn [length].
  pose proof (split_length_pos "," x) as Hx. split; [lia |].
  intros [Hc | Hc]%Exists_cons.
  - apply split_length_sep in Hc. lia.
  - specialize (IHlt Hc). lia.
Qed.

Variable repr : pyval → string.

(** X16: A non-empty list of strings stored by [_prepare_metadata] is read back
    by the split of the post-filter as the same list exactly when none of
    its elements contains a comma. *)
Theorem stored_list_roundtrip_iff (chunk : chunk) (field : string) (l : list string) :
  field ≠ "embedding" → field ≠ "chunk_id" →
  chunk !! field = Some (PList (PStr <$> l)) →
  l ≠ [] →
  Py.split "," (default "" (_prepare_metadata repr chunk !! field)) = l
  ↔ Forall (λ s, has_char "," s = false) l.
Proof.
  intros Hemb Hid Hfield Hne.
  rewrite (prepare_metadata_list repr _ _ _ Hemb Hid Hfield). cbn.
  split; [| by apply split_join].
  rewrite split_join_concat by done. intros Heq.
  apply Forall_forall. intros s Hs.
  destruct (has_char "," s) eqn:Hc; [| done]. exfalso.
  assert (Hex : Exists (λ s, has_char "," s = true) l).
  { apply Exists_exists. eauto. }
  apply (proj2 (concat_split_length l)) in Hex. rewrite Heq in Hex. lia.
Qed.

(** The loop over a table collects, in table order, the tags with a
    keyword in the text. *)
Lemma collect_tags_filter table (text_lower : string) :
  collect_tags table text_lower = hit_tags table text_lower.
Proof.
  unfold collect_tags, hit_tags.
  assert (Hgen : ∀ acc, foldl (collect_step text_lower) acc table
                        = acc ++ (fst <$> filter (λ entry, keyword_hit text_lower entry.2 = true) table)).
  { induction table as [| e table IH]; intros acc; cbn [foldl].
    - by rewrite filter_nil, app_nil_r.
    - rewrite IH, filter_cons. unfold collect_step.
      destruct (keyword_hit text_lower e.2) eqn:Hk.
      + rewrite decide_True by done. by rewrite fmap_cons, <- app_assoc.
      + by rewrite decide_False by done. }
  apply (Hgen []).
Qed.

Lemma hit_tags_sublist table (text_lower : string) :
  hit_tags table text_lower `sublist_of` (fst <$> table).
Proof. unfold hit_tags. apply fmap_sublist, sublist_filter. Qed.

(** A list of tags that is either the fallback or a sub-sequence of the
    names of a table. *)
Lemma or_fallback_cases (fallback : string) (names tags : list string) :
  tags `sublist_of` names →
  or_fallback fallback tags ≠ []
  ∧ (or_fallback fallback tags = [fallback] ∧ tags = []
     ∨ or_fallback fallback tags = tags ∧ tags `sublist_of` names).
Proof. intros Hsub. destruct tags; cbn; [by split; [| left] | by split; [| right]]. Qed.

(** The tags stored for a chunk are a non-empty list of comma-free
    strings. *)
Lemma or_fallback_hit_tags (table : list (string * list string)) (fallback : string)
    (text_lower : string) :
  Forall (λ s, has_char "," s = false) (fst <$> table) →
  has_char "," fallback = false →
  or_fallback fallback (hit_tags table text_lower) ≠ []
  ∧ Forall (λ s, has_char "," s = false)
      (or_fallback fallback (hit_tags table text_lower)).
Proof.
  intros Htable Hfallback.
  pose proof (hit_tags_sublist table text_lower) as Hsub.
  destruct (hit_tags table text_lower) as [| t ts]; cbn [or_fallback].
  - split; [done | by repeat constructor].
  - split; [done |]. apply Forall_forall. intros x Hx.
    eapply Forall_forall in Htable; [done |]. by eapply elem_of_sublist.
Qed.

(** X17: [_extract_themes] and [_extract_emotions] never return an empty list:
    the result is [['general']] (resp. [['neutral']]) when no keyword
    occurs, and otherwise the tags with a keyword in the lowered text, in
    dictionary order. No tag is repeated and no tag contains a comma. *)
Theorem extract_tags_spec (lower : string → string) (text : string) :
  let themes := _extract_themes lower text in
  let emotions := _extract_emotions lower text in
  themes ≠ [] ∧ emotions ≠ []
  ∧ themes = (if decide (hit_tags THEMES (lower text) = []) then ["general"]
              else hit_tags THEMES (lower text))
  ∧ emotions = (if decide (hit_tags EMOTIONS (lower text) = []) then ["neutral"]
                else hit_tags EMOTIONS (lower text))
  ∧ NoDup themes ∧ NoDup emotions
  ∧ Forall (λ s, has_char "," s = false) themes
  ∧ Forall (λ s, has_char "," s = false) emotions.
Proof.
  cbv zeta. unfold _extract_themes, _extract_emotions. rewrite !collect_tags_filter.
  pose proof (hit_tags_sublist THEMES (lower text)) as Hth.
  pose proof (hit_tags_sublist EMOTIONS (lower text)) as Hem.
  assert (Hnames_th : NoDup (fst <$> THEMES)
                      ∧ Forall (λ s, has_char "," s = false) (fst <$> THEMES)).
  { split; [by apply (bool_decide_unpack _) | repeat constructor]. }
  assert (Hnames_em : NoDup (fst <$> EMOTIONS)
                      ∧ Forall (λ s, has_char "," s = false) (fst <$> EMOTIONS)).
  { split; [by apply (bool_decide_unpack _) | repeat constructor]. }
  destruct Hnames_th as [Hnd_th Hc_th]. destruct Hnames_em as [Hnd_em Hc_em].
  assert (Hsub_Forall : ∀ (P : string → Prop) (l1 l2 : list string),
            l1 `sublist_of` l2 → Forall P l2 → Forall P l1).
  { intros P l1 l2 Hsub Hall. apply Forall_forall. intros x Hx.
    eapply Forall_forall in Hall; [done |]. by eapply elem_of_sublist. }
  destruct (hit_tags THEMES (lower text)) as [| t ts] eqn:Hts;
    destruct (hit_tags EMOTIONS (lower text)) as [| e es] eqn:Hes; cbn [or_fallback].
  all: rewrite ?decide_True by done; rewrite ?decide_False by done.
  all: repeat split; try done.
  all: try (apply NoDup_singleton).
  all: try (by repeat constructor).
  all: try (by apply (sublist_NoDup _ _ Hnd_th)).
  all: try (by apply (sublist_NoDup _ _ Hnd_em)).
  all: try (by apply (Hsub_Forall _ _ _ Hth Hc_th)).
  all: by apply (Hsub_Forall _ _ _ Hem Hc_em).
Qed.


(** X18: For a chunk whose [themes] are those of [_extract_themes], the themes
    post-filter matches a request exactly when one of the requested values
    is one of the extracted themes: the stored string loses nothing. *)
Theorem extracted_themes_match (lower : string → string) (text : string)
    (chunk : chunk) (requested : list string) :
  chunk !! "themes" = Some (PList (PStr <$> _extract_themes lower text)) →
  field_matches "themes" requested (_prepare_metadata repr chunk) = true
  ↔ ∃ v, v ∈ requested ∧ v ∈ _extract_themes lower text.
Proof.
  intros Hfield.
  assert (Hfacts : _extract_themes lower text ≠ []
                   ∧ Forall (λ s, has_char "," s = false) (_extract_themes lower text)).
  { unfold _extract_themes. rewrite collect_tags_filter.
    apply or_fallback_hit_tags; [repeat constructor | done]. }
  destruct Hfacts as [Hne Hcomma].
  by apply (stored_list_matches repr chunk "themes").
Qed.

(** The same for [emotional_tone] and [_extract_emotions]. *)
Theorem extracted_emotions_match (lower : string → string) (text : string)
    (chunk : chunk) (requested : list string) :
  chunk !! "emotional_tone" = Some (PList (PStr <$> _extract_emotions lower text)) →
  field_matches "emotional_tone" requested (_prepare_metadata repr chunk) = true
  ↔ ∃ v, v ∈ requested ∧ v ∈ _extract_emotions lower text.
Proof.
  intros Hfield.
  assert (Hfacts : _extract_emotions lower text ≠ []
                   ∧ Forall (λ s, has_char "," s = false)
                       (_extract_emotions lower text)).
  { unfold _extract_emotions. rewrite collect_tags_filter.
    apply or_fallback_hit_tags; [repeat constructor | done]. }
  destruct Hfacts as [Hne Hcomma].
  by apply (stored_list_matches repr chunk "emotional_tone").
Qed.

End StoredLists.

(* ================================================================== *)
(** * Formatting of query results *)
(* ================================================================== *)

Section QueryByTextProperties.

Context {D : Type}.

Lemma seq_lookup_default {A : Type} (d : A) (l : list A) :
  (λ i, default d (l !! i)) <$> seq 0 (length l) = l.
Proof.
  apply list_eq. intros i. rewrite list_lookup_fmap.
  destruct (decide (i < length l)%nat) as [Hlt | Hge].
  - rewrite lookup_seq_lt by done. cbn.
    destruct (lookup_lt_is_Some_2 l i Hlt) as [x Hx]. by rewrite Hx.
  - rewrite lookup_seq_ge by lia. cbn. symmetry. apply lookup_ge_None. lia.
Qed.

Lemma mapM_seq_Some {B : Type} (f : nat → option B) (g : nat → B) (n : nat) :
  (∀ i, (i < n)%nat → f i = Some (g i)) →
  mapM f (seq 0 n) = Some (g <$> seq 0 n).
Proof.
  intros Hf. apply mapM_Some. apply Forall2_fmap_r, Forall_Forall2_diag.
  apply Forall_forall. intros i Hi. apply elem_of_seq in Hi. apply Hf. lia.
Qed.

(** X19: When the index answers with rows of equal length, [query_by_text]
    returns one result per id, in the order of the index, each built from
    the entries at its position: ids, texts, metadata and distances are the
    rows of the answer. *)
Theorem format_results_rows (ids0 docs0 : list string)
    (metas0 : list (gmap string string)) (dists0 : list D)
    (ids_more docs_more : list (list string))
    (metas_more : list (list (gmap string string))) (dists_more : list (list D)) :
  length docs0 = length ids0 →
  length metas0 = length ids0 →
  length dists0 = length ids0 →
  ∃ formatted : list (Result (option D)),
    format_results
      (mk_query_results (ids0 :: ids_more) (docs0 :: docs_more)
         (metas0 :: metas_more) (Some (dists0 :: dists_more)))
    = Indexed formatted
    ∧ r_chunk_id <$> formatted = ids0
    ∧ r_chunk_text <$> formatted = docs0
    ∧ r_metadata <$> formatted = metas0
    ∧ r_distance <$> formatted = Some <$> dists0.
Proof.
  intros Hdocs Hmetas Hdists.
  destruct ids0 as [| id0 ids0].
  { destruct docs0; [| done]. destruct metas0; [| done]. destruct dists0; [| done].
    exists []. done. }
  set (ids := id0 :: ids0) in *.
  set (g := λ i : nat,
         mk_result (default "" (ids !! i)) (default "" (docs0 !! i))
           (default ∅ (metas0 !! i)) (dists0 !! i)).
  exists (g <$> seq 0 (length ids)).
  split; [| split; [| split; [| split]]].
  - unfold format_results. cbn [q_ids]. fold ids.
    rewrite (mapM_seq_Some _ g); [done |].
    intros i Hi. unfold format_result, cell, g. cbn.
    destruct (lookup_lt_is_Some_2 ids i Hi) as [x ->].
    destruct (lookup_lt_is_Some_2 docs0 i) as [y ->]; [lia |].
    destruct (lookup_lt_is_Some_2 metas0 i) as [z ->]; [lia |].
    destruct (lookup_lt_is_Some_2 dists0 i) as [d ->]; [lia |].
    done.
  - rewrite <- list_fmap_compose. apply (seq_lookup_default "" ids).
  - rewrite <- list_fmap_compose, <- Hdocs. apply (seq_lookup_default "" docs0).
  - rewrite <- list_fmap_compose, <- Hmetas. apply (seq_lookup_default ∅ metas0).
  - rewrite <- list_fmap_compose, <- Hdists.
    apply list_eq. intros i. rewrite !list_lookup_fmap. unfold compose, g. cbn.
    destruct (decide (i < length dists0)%nat) as [Hlt | Hge].
    + rewrite lookup_seq_lt by done. cbn.
      by destruct (lookup_lt_is_Some_2 dists0 i Hlt) as [x ->].
    + rewrite lookup_seq_ge by lia. cbn.
      by rewrite (proj2 (lookup_ge_None dists0 i)) by lia.
Qed.

(** X20: When the row of documents is shorter than the row of ids, the
    formatting loop raises [IndexError]: no partial list is returned. *)
Theorem format_results_short_documents (results : query_results D)
    (ids0 docs0 : list string) (ids_more docs_more : list (list string)) :
  q_ids results = ids0 :: ids_more →
  q_documents results = docs0 :: docs_more →
  (length docs0 < length ids0)%nat →
  format_results results = RaiseIndexError.
Proof.
  intros Hids Hdocs Hshort. unfold format_results. rewrite Hids.
  destruct ids0 as [| id0 ids0]; [cbn in Hshort; lia |].
  destruct (mapM (format_result results) (seq 0 (length (id0 :: ids0))))
    as [formatted |] eqn:Hmap; [| done].
  exfalso.
  assert (Hsome : is_Some (mapM (format_result results)
                             (seq 0 (length (id0 :: ids0))))) by eauto.
  apply mapM_is_Some in Hsome.
  eapply Forall_forall in Hsome; [| apply elem_of_seq; split; [lia | exact Hshort]].
  destruct Hsome as [r Hr]. cbn in Hr. unfold format_result, cell in Hr.
  rewrite Hids, Hdocs in Hr. cbn in Hr.
  destruct ((id0 :: ids0) !! length docs0); cbn in Hr; [| done].
  by rewrite (proj2 (lookup_ge_None docs0 (length docs0))) in Hr by lia.
Qed.

End QueryByTextProperties.

Lemma format_results_rows_witness :
  length ["To be"; "Love looks"] = length ["chunk_1"; "chunk_2"]
  ∧ ∃ formatted : list (Result (option Q)),
      format_results
        (mk_query_results [["chunk_1"; "chunk_2"]] [["To be"; "Love looks"]]
           [[∅; ∅]] (Some [[0.25%Q; 0.5%Q]]))
      = Indexed formatted
      ∧ r_chunk_id <$> formatted = ["chunk_1"; "chunk_2"].
Proof.
  split; [reflexivity |].
  destruct (format_results_rows ["chunk_1"; "chunk_2"] ["To be"; "Love looks"]
              [∅; ∅] [0.25%Q; 0.5%Q] [] [] [] [] eq_refl eq_refl eq_refl)
    as (formatted & Hfmt & Hids & _).
  exists formatted. split; [exact Hfmt | exact Hids].
Defined.

Lemma format_results_short_documents_witness :
  (length ["To be"] < length ["chunk_1"; "chunk_2"])%nat
  ∧ format_results
      (mk_query_results [["chunk_1"; "chunk_2"]] [["To be"]] [[∅; ∅]]
         (Some [[0.25%Q; 0.5%Q]]))
    = RaiseIndexError.
Proof.
  assert (Hshort : (length ["To be"] < length ["chunk_1"; "chunk_2"])%nat).
  { cbn. lia. }
  split; [exact Hshort |].
  exact (format_results_short_documents
           (mk_query_results [["chunk_1"; "chunk_2"]] [["To be"]] [[∅; ∅]]
              (Some [[0.25%Q; 0.5%Q]]))
           ["chunk_1"; "chunk_2"] ["To be"] [] [] eq_refl eq_refl Hshort).
Defined.

(* ================================================================== *)
(** * Properties of src/utils.py *)
(* ================================================================== *)

Section CleanTextProperties.

Context {C : Type} (is_space : C → bool) (space : C).

Implicit Types (text : list C) (c : C).
Lemma single_spaced_weaken text :
  single_spaced is_space space true text → single_spaced is_space space false text.
Proof.
  destruct text as [| c rest]; cbn; [done |].
  destruct (is_space c); [by intros [? _] | done].
Qed.

Lemma sub_spaces_from_single (in_run : bool) text :
  single_spaced is_space space in_run (sub_spaces_from is_space space in_run text).
Proof.
  revert in_run. induction text as [| c rest IH]; intros in_run; cbn; [done |].
  destruct (is_space c) eqn:Hc.
  - destruct in_run; [apply IH |]. cbn.
    destruct (is_space space); [by repeat split |].
    apply single_spaced_weaken, IH.
  - cbn. rewrite Hc. apply IH.
Qed.

Lemma sub_spaces_from_fixed (in_run : bool) text :
  single_spaced is_space space in_run text → sub_spaces_from is_space space in_run text = text.
Proof.
  revert in_run. induction text as [| c rest IH]; intros in_run; cbn; [done |].
  destruct (is_space c).
  - intros (-> & -> & Hrest). by rewrite (IH true Hrest).
  - intros Hrest. by rewrite (IH false Hrest).
Qed.

Lemma lstrip_single text :
  single_spaced is_space space false text →
  single_spaced is_space space false (lstrip is_space text).
Proof.
  induction text as [| c rest IH]; cbn; [done |].
  destruct (is_space c) eqn:Hc.
  - intros (_ & _ & Hrest). by apply IH, single_spaced_weaken.
  - intros Hrest. cbn. by rewrite Hc.
Qed.

Lemma lstrip_head text c : head (lstrip is_space text) = Some c → is_space c = false.
Proof.
  induction text as [| c' rest IH]; cbn; [done |].
  destruct (is_space c') eqn:Hc; [done |]. cbn. by intros [= <-].
Qed.

Lemma lstrip_fixed text :
  (∀ c, head text = Some c → is_space c = false) → lstrip is_space text = text.
Proof. destruct text as [| c rest]; cbn; [done |]. intros Hc. by rewrite (Hc c eq_refl). Qed.

Lemma rstrip_single (after_space : bool) text :
  single_spaced is_space space after_space text →
  single_spaced is_space space after_space (rstrip is_space text).
Proof.
  revert after_space. induction text as [| c rest IH]; intros after_space; [done |].
  cbn [rstrip single_spaced].
  destruct (is_space c) eqn:Hc.
  - intros (Hb & Heq & Hrest). specialize (IH true Hrest).
    destruct (rstrip is_space rest) as [| r rs]; [done |].
    cbn [single_spaced]. by rewrite Hc.
  - intros Hrest. specialize (IH false Hrest).
    destruct (rstrip is_space rest) as [| r rs]; cbn [single_spaced]; by rewrite Hc.
Qed.

Lemma rstrip_last text c : last (rstrip is_space text) = Some c → is_space c = false.
Proof.
  induction text as [| c' rest IH]; cbn [rstrip]; [done |].
  destruct (rstrip is_space rest) as [| r rs].
  - destruct (is_space c') eqn:Hc; [done |]. cbn. by intros [= <-].
  - intros Hlast. apply IH. by rewrite last_cons_cons in Hlast.
Qed.

Lemma rstrip_head text c :
  head text = Some c → is_space c = false → head (rstrip is_space text) = Some c.
Proof.
  destruct text as [| c' rest]; cbn [head rstrip]; [done |].
  intros [= ->] Hc. destruct (rstrip is_space rest); [by rewrite Hc |]. done.
Qed.

Lemma rstrip_head_inv text c :
  head (rstrip is_space text) = Some c → head text = Some c.
Proof.
  destruct text as [| c' rest]; cbn [head rstrip]; [done |].
  destruct (rstrip is_space rest); [| done]. by destruct (is_space c').
Qed.

Lemma rstrip_fixed text :
  (∀ c, last text = Some c → is_space c = false) → rstrip is_space text = text.
Proof.
  induction text as [| c rest IH]; [done |]. cbn [rstrip].
  destruct rest as [| r rs].
  - intros Hc. cbn. by rewrite (Hc c eq_refl).
  - intros Hlast. rewrite IH; [done |].
    intros c' Hc'. apply Hlast. by rewrite last_cons_cons.
Qed.

Lemma strip_trimmed text : trimmed is_space (strip is_space text).
Proof.
  unfold trimmed, strip. split.
  - intros c Hc. apply rstrip_head_inv in Hc. by apply lstrip_head in Hc.
  - apply rstrip_last.
Qed.

Lemma strip_fixed text : trimmed is_space text → strip is_space text = text.
Proof.
  intros [Hhead Hlast]. unfold strip. rewrite (lstrip_fixed _ Hhead).
  by apply rstrip_fixed.
Qed.

(** A text in normal form is left as it is. *)
Lemma clean_text_fixed text :
  single_spaced is_space space false text → trimmed is_space text →
  clean_text is_space space text = text.
Proof.
  intros Hsingle Htrim. unfold clean_text, sub_spaces.
  rewrite (sub_spaces_from_fixed false text Hsingle). by apply strip_fixed.
Qed.

Lemma clean_text_result text :
  single_spaced is_space space false (clean_text is_space space text)
  ∧ trimmed is_space (clean_text is_space space text).
Proof.
  unfold clean_text. split; [| apply strip_trimmed].
  unfold strip. apply rstrip_single, lstrip_single, sub_spaces_from_single.
Qed.

(** X21: The text returned by [clean_text] is in normal form: it neither starts
    nor ends with white space, and its only white-space characters are
    single [' '] between other characters. The texts that [clean_text]
    leaves as they are, are exactly the texts in normal form. *)
Theorem clean_text_normal_form text :
  (single_spaced is_space space false (clean_text is_space space text)
   ∧ trimmed is_space (clean_text is_space space text))
  ∧ (clean_text is_space space text = text
     ↔ single_spaced is_space space false text ∧ trimmed is_space text).
Proof.
  split; [apply clean_text_result |]. split.
  - intros <-. apply clean_text_result.
  - intros [Hsingle Htrim]. by apply clean_text_fixed.
Qed.

(** X22: [clean_text] is idempotent. *)
Theorem clean_text_idempotent text :
  clean_text is_space space (clean_text is_space space text)
  = clean_text is_space space text.
Proof.
  destruct (clean_text_result text) as [Hsingle Htrim].
  by apply clean_text_fixed.
Qed.

End CleanTextProperties.

Section CountSyllables.

Variables lower strip_str : string → string.

Lemma count_groups_bounds (syllable_count : nat) (previous_was_vowel : bool)
    (word : string) :
  (syllable_count ≤ count_groups syllable_count previous_was_vowel word)%nat
  ∧ (count_groups syllable_count previous_was_vowel word
     ≤ syllable_count + count_vowels word)%nat.
Proof.
  revert syllable_count previous_was_vowel.
  induction word as [| c rest IH]; intros n prev; cbn -[is_vowel]; [lia |].
  destruct (is_vowel c); cbn -[is_vowel].
  - destruct prev; cbn -[is_vowel].
    + destruct (IH n true). lia.
    + destruct (IH (n + 1)%nat true). lia.
  - destruct (IH n false). lia.
Qed.

Lemma count_vowels_drop_last (word : string) :
  (count_vowels (drop_last word) ≤ count_vowels word)%nat.
Proof.
  induction word as [| c rest IH]; cbn -[is_vowel]; [lia |].
  destruct rest as [| c' rest']; [cbn -[is_vowel]; lia |].
  cbn -[is_vowel] in *. lia.
Qed.

(** X23: [count_syllables] returns 0 exactly for a word that is blank once
    lowered and stripped; any other word gets at least one syllable, and
    never more than it has vowels (or one, when it has none). *)
Theorem count_syllables_bounds (word : string) :
  (count_syllables lower strip_str word = 0%nat ↔ strip_str (lower word) = "")
  ∧ (strip_str (lower word) ≠ "" →
     (1 ≤ count_syllables lower strip_str word)%nat)
  ∧ (count_syllables lower strip_str word
     ≤ 1 `max` count_vowels (strip_str (lower word)))%nat.
Proof.
  unfold count_syllables.
  destruct (String.eqb_spec (strip_str (lower word)) "") as [Heq | Hne].
  - rewrite Heq. split; [done |]. split; [done | cbn; lia].
  - set (w := strip_str (lower word)) in *.
    set (w' := if ends_with_e w then drop_last w else w).
    assert (Hv : (count_vowels w' ≤ count_vowels w)%nat).
    { unfold w'. destruct (ends_with_e w); [apply count_vowels_drop_last | done]. }
    destruct (count_groups_bounds 0 false w') as [_ Hub].
    split; [split; [lia | done] |]. split; [lia |]. lia.
Qed.

End CountSyllables.

(** ** The theorems on stored lists at concrete inputs *)

Lemma stored_list_roundtrip_iff_witness :
  "themes" ≠ "embedding" ∧ "themes" ≠ "chunk_id"
  ∧ good_chunk !! "themes" = Some (PList (PStr <$> ["death"; "existence"]))
  ∧ ["death"; "existence"] ≠ []
  ∧ (Py.split "," (default "" (_prepare_metadata repr_none good_chunk !! "themes"))
     = ["death"; "existence"]
     ↔ Forall (λ s, has_char "," s = false) ["death"; "existence"]).
Proof.
  assert (Hemb : "themes" ≠ "embedding") by discriminate.
  assert (Hid : "themes" ≠ "chunk_id") by discriminate.
  assert (Hfield : good_chunk !! "themes"
                   = Some (PList (PStr <$> ["death"; "existence"]))).
  { vm_compute. reflexivity. }
  assert (Hne : ["death"; "existence"] ≠ []) by discriminate.
  split; [exact Hemb | split; [exact Hid | split; [exact Hfield | split; [exact Hne |]]]].
  exact (stored_list_roundtrip_iff repr_none good_chunk "themes"
           ["death"; "existence"] Hemb Hid Hfield Hne).
Defined.

Lemma extracted_themes_match_witness :
  extracted_chunk "My love is dead" !! "themes"
  = Some (PList (PStr <$> _extract_themes lower_ascii "My love is dead"))
  ∧ (field_matches "themes" ["death"]
       (_prepare_metadata repr_none (extracted_chunk "My love is dead")) = true
     ↔ ∃ v, v ∈ ["death"] ∧ v ∈ _extract_themes lower_ascii "My love is dead").
Proof.
  assert (Hfield : extracted_chunk "My love is dead" !! "themes"
                   = Some (PList (PStr <$> _extract_themes lower_ascii
                                             "My love is dead"))).
  { vm_compute. reflexivity. }
  split; [exact Hfield |].
  exact (extracted_themes_match repr_none lower_ascii "My love is dead"
           (extracted_chunk "My love is dead") ["death"] Hfield).
Defined.

Lemma extracted_emotions_match_witness :
  extracted_chunk "My love is dead" !! "emotional_tone"
  = Some (PList (PStr <$> _extract_emotions lower_ascii "My love is dead"))
  ∧ (field_matches "emotional_tone" ["loving"]
       (_prepare_metadata repr_none (extracted_chunk "My love is dead")) = true
     ↔ ∃ v, v ∈ ["loving"] ∧ v ∈ _extract_emotions lower_ascii "My love is dead").
Proof.
  assert (Hfield : extracted_chunk "My love is dead" !! "emotional_tone"
                   = Some (PList (PStr <$> _extract_emotions lower_ascii
                                             "My love is dead"))).
  { vm_compute. reflexivity. }
  split; [exact Hfield |].
  exact (extracted_emotions_match repr_none lower_ascii "My love is dead"
           (extracted_chunk "My love is dead") ["loving"] Hfield).
Defined.

(* ================================================================== *)
(** * Properties of src/chunker.py *)
(* ================================================================== *)

Section ChunkerProperties.

(** X24: [_determine_context] answers ["soliloquy"] exactly when the scene
    has at least one speech and all its speeches are by one character;
    every other scene, the empty one included, is a ["dialogue"]. The
    answer is the same for every speech of the scene. *)
Theorem determine_context_soliloquy (speeches : list (string * string))
    (character : string) :
  (_determine_context speeches character = "soliloquy"
   ↔ speeches ≠ [] ∧ ∃ c, Forall (λ speech, speech.1 = c) speeches)
  ∧ (_determine_context speeches character ≠ "soliloquy" →
     _determine_context speeches character = "dialogue").
Proof.
  unfold _determine_context. cbv zeta.
  destruct (decide (size (list_to_set (fst <$> speeches) : gset string) = 1%nat))
    as [Hone | Hmany].
  - split; [| done]. split; [intros _ | done].
    split.
    + intros ->. cbn in Hone. by rewrite size_empty in Hone.
    + apply size_1_elem_of in Hone as [c Hc]. exists c.
      apply Forall_forall. intros speech Hspeech.
      assert (Hin : speech.1 ∈ (list_to_set (fst <$> speeches) : gset string)).
      { apply elem_of_list_to_set, list_elem_of_fmap. eauto. }
      rewrite Hc in Hin. by apply elem_of_singleton in Hin.
  - split; [| done]. split; [done |]. intros [Hne [c Hall]]. exfalso. apply Hmany.
    assert (Heq : (list_to_set (fst <$> speeches) : gset string) = {[c]}).
    { apply set_eq. intros x. rewrite elem_of_list_to_set, elem_of_singleton. split.
      - intros (speech & -> & Hin)%list_elem_of_fmap.
        by eapply Forall_forall in Hall.
      - intros ->. destruct speeches as [| speech rest]; [done |].
        apply list_elem_of_fmap. exists speech. split; [| by left].
        by apply Forall_cons in Hall as [-> _]. }
    rewrite Heq. apply size_singleton.
Qed.

Context {A : Type} (split_words : string → list string) (clean : string → string)
  (meaningful : string → bool) (make_chunk : string → A).

Lemma fragment_chunk_length (words : list string) (window_size i : nat) :
  (length (fragment_chunk clean meaningful make_chunk words window_size i) ≤ 1)%nat.
Proof. unfold fragment_chunk. destruct (meaningful _); cbn; lia. Qed.

Lemma bind_length_le {B E : Type} (f : B → list E) (l : list B) :
  (∀ x, (length (f x) ≤ 1)%nat) → (length (l ≫= f) ≤ length l)%nat.
Proof.
  intros Hf. induction l as [| x l IH]; [done |].
  cbn. rewrite length_app. specialize (Hf x). lia.
Qed.

(** X25: Every chunk of [_create_fragment_chunks] is built from a window
    of exactly 8, 6, 5, 4 or 3 consecutive words of the speech whose
    cleaned text is meaningful, and every such window gives a chunk. A
    speech of fewer than three words gives no chunk, and a speech of [n]
    words gives at most one chunk per window position. *)
Theorem create_fragment_chunks_windows (speech_text : string) (chunk : A) :
  let words := split_words speech_text in
  let chunks := _create_fragment_chunks split_words clean meaningful make_chunk
                  speech_text in
  (chunk ∈ chunks
   ↔ ∃ window_size i,
       window_size ∈ window_sizes
       ∧ (i + window_size ≤ length words)%nat
       ∧ length (take window_size (drop i words)) = window_size
       ∧ meaningful (fragment_at clean words window_size i) = true
       ∧ chunk = make_chunk (fragment_at clean words window_size i))
  ∧ ((length words < 3)%nat → chunks = [])
  ∧ (length chunks
     ≤ (length words + 1 - 8) + (length words + 1 - 6) + (length words + 1 - 5)
       + (length words + 1 - 4) + (length words + 1 - 3))%nat.
Proof.
  cbv zeta. unfold _create_fragment_chunks. cbv zeta.
  set (words := split_words speech_text). split; [| split].
  - rewrite list_elem_of_bind. split.
    + intros (ws & Hchunk & Hws). apply list_elem_of_bind in Hchunk as (i & Hchunk & Hi).
      apply elem_of_seq in Hi. exists ws, i.
      assert (Hle : (i + ws ≤ length words)%nat).
      { unfold window_sizes in Hws.
        repeat (apply elem_of_cons in Hws as [-> | Hws]; [lia |]).
        by apply elem_of_nil in Hws. }
      split; [done |]. split; [done |].
      split; [rewrite length_take, length_drop; lia |].
      unfold fragment_chunk in Hchunk. cbv zeta in Hchunk.
      destruct (meaningful (fragment_at clean words ws i)); [| by apply elem_of_nil in Hchunk].
      by apply list_elem_of_singleton in Hchunk.
    + intros (ws & i & Hws & Hle & _ & Hm & ->). exists ws. split; [| done].
      apply list_elem_of_bind. exists i. split.
      * unfold fragment_chunk. cbv zeta. rewrite Hm. by apply list_elem_of_singleton.
      * apply elem_of_seq.
        assert (0 < ws)%nat.
        { unfold window_sizes in Hws.
          repeat (apply elem_of_cons in Hws as [-> | Hws]; [lia |]).
          by apply elem_of_nil in Hws. }
        lia.
  - intros Hshort. unfold window_sizes. cbn [mbind list_bind].
    replace (length words + 1 - 8)%nat with 0%nat by lia.
    replace (length words + 1 - 6)%nat with 0%nat by lia.
    replace (length words + 1 - 5)%nat with 0%nat by lia.
    replace (length words + 1 - 4)%nat with 0%nat by lia.
    replace (length words + 1 - 3)%nat with 0%nat by lia.
    done.
  - unfold window_sizes. cbn [mbind list_bind]. rewrite !length_app. cbn [length].
    pose proof (λ ws, bind_length_le
                  (λ i, fragment_chunk clean meaningful make_chunk words ws i)
                  (seq 0 (length words + 1 - ws))
                  (fragment_chunk_length words ws)) as Hb.
    pose proof (Hb 8%nat) as H8. pose proof (Hb 6%nat) as H6.
    pose proof (Hb 5%nat) as H5. pose proof (Hb 4%nat) as H4.
    pose proof (Hb 3%nat) as H3.
    rewrite length_seq in H8, H6, H5, H4, H3. lia.
Qed.

End ChunkerProperties.
